(** * PPCDebugInterface: the debugger facade of the emulated PowerPC

    A shallow embedding of [Source/Core/Core/Debugger/PPCDebugInterface.cpp]
    and the properties of its toggle operations, its sentinel strings, its
    memory readers and its block colouring.

    The facade owns no data of its own apart from the watches: breakpoints and
    memory checks live in [PowerPC::breakpoints] and [PowerPC::memchecks], and
    every read of the emulated machine goes through a collaborator
    ([Core], [PowerPC], [DSP], [GekkoDisassembler], [g_symbolDB]).  The
    two collections are modelled by explicit state passing; the collaborators
    are the fields of a record [Machine], and every call the facade makes to
    one of them is logged, so that "this path does not touch memory" is a
    statement about the log. *)

From Stdlib Require Import ZArith List String Ascii Bool Lia.
From stdpp Require Import base decidable numbers gmap.

Import ListNotations.
Local Open Scope Z_scope.

(** ** Machine integers *)

(** [unsigned int], [u32]: 32 bits, wrap-around. *)
Definition u32 (x : Z) : Z := x mod 2 ^ 32.

(** [u8]: 8 bits. *)
Definition u8 (x : Z) : Z := x mod 2 ^ 8.

(** [int]: 32 bits, two's complement. *)
Definition s32 (x : Z) : Z := (x + 2 ^ 31) mod 2 ^ 32 - 2 ^ 31.

(** ** Breakpoints *)

Module BreakPoints.

(** Modelled from the spec: the class [BreakPoints]
    (Core/PowerPC/BreakPoints.cpp) is not part of the sources at hand.  The
    specification describes a breakpoint as a bare address held in a set
    keyed by address, an address being present at most once. *)
Abbreviation t := (gset Z).

(** Modelled from the spec: [IsAddressBreakPoint(address) -> bool],
    membership of the address. *)
Definition IsAddressBreakPoint (bps : t) (address : Z) : bool :=
  bool_decide (address ∈ bps).

(** Modelled from the spec: [Add(address)] is idempotent, adding an address
    that is already present is a no-op. *)
Definition Add (bps : t) (address : Z) : t := {[address]} ∪ bps.

(** Modelled from the spec: [Remove(address)], a no-op if absent. *)
Definition Remove (bps : t) (address : Z) : t := bps ∖ {[address]}.

(** Modelled from the spec: [Clear()] empties the set. *)
Definition Clear (bps : t) : t := ∅.

End BreakPoints.

(** [PPCDebugInterface::IsBreakpoint]. *)
Definition IsBreakpoint (bps : BreakPoints.t) (address : Z) : bool :=
  BreakPoints.IsAddressBreakPoint bps address.

(** [PPCDebugInterface::SetBreakpoint]. *)
Definition SetBreakpoint (bps : BreakPoints.t) (address : Z) : BreakPoints.t :=
  BreakPoints.Add bps address.

(** [PPCDebugInterface::ClearBreakpoint]. *)
Definition ClearBreakpoint (bps : BreakPoints.t) (address : Z) : BreakPoints.t :=
  BreakPoints.Remove bps address.

(** [PPCDebugInterface::ClearAllBreakpoints]. *)
Definition ClearAllBreakpoints (bps : BreakPoints.t) : BreakPoints.t :=
  BreakPoints.Clear bps.

(** [PPCDebugInterface::ToggleBreakpoint]: check, then remove or add. *)
Definition ToggleBreakpoint (bps : BreakPoints.t) (address : Z) : BreakPoints.t :=
  if BreakPoints.IsAddressBreakPoint bps address
  then BreakPoints.Remove bps address
  else BreakPoints.Add bps address.

(** ** Memory checks *)

(** Modelled from the spec: [TMemCheck] is declared in
    Core/PowerPC/BreakPoints.h, which is not part of the sources at hand.
    These are the six fields the specification lists, and the six
    [ToggleMemCheck] assigns. *)
Record TMemCheck : Type := mkTMemCheck {
  start_address : Z;
  end_address : Z;
  is_break_on_read : bool;
  is_break_on_write : bool;
  log_on_hit : bool;
  break_on_hit : bool
}.

Module MemChecks.

(** Modelled from the spec: the class [MemChecks]
    (Core/PowerPC/BreakPoints.cpp) is not part of the sources at hand.  The
    records are kept in insertion order and may overlap. *)
Abbreviation t := (list TMemCheck).

(** The range of a record, both ends included (a point check has
    [start_address = end_address]), meets [[address, address + size)]. *)
Definition overlaps (mc : TMemCheck) (address size : Z) : bool :=
  (start_address mc <? address + size) && (address <=? end_address mc).

(** The range of a record contains [address]. *)
Definition contains (mc : TMemCheck) (address : Z) : bool :=
  (start_address mc <=? address) && (address <=? end_address mc).

(** Modelled from the spec: [GetMemCheck(address, size=1)] returns the first
    range overlapping [[address, address+size)], or none. *)
Fixpoint GetMemCheck (mcs : t) (address size : Z) : option TMemCheck :=
  match mcs with
  | [] => None
  | mc :: rest =>
      if overlaps mc address size then Some mc
      else GetMemCheck rest address size
  end.

(** Modelled from the spec: [Add(memcheck)] appends; overlapping ranges are
    not merged. *)
Definition Add (mcs : t) (mc : TMemCheck) : t := mcs ++ [mc].

(** Modelled from the spec: [Remove(address)] removes a record whose range
    contains [address]: one match, the first found, not every overlapping
    record. *)
Fixpoint Remove (mcs : t) (address : Z) : t :=
  match mcs with
  | [] => []
  | mc :: rest =>
      if contains mc address then rest
      else mc :: Remove rest address
  end.

(** Modelled from the spec: [Clear()] empties the set. *)
Definition Clear (mcs : t) : t := [].

End MemChecks.

(** [PPCDebugInterface::ClearAllMemChecks]. *)
Definition ClearAllMemChecks (mcs : MemChecks.t) : MemChecks.t :=
  MemChecks.Clear mcs.

(** [PPCDebugInterface::IsMemCheck]: [GetMemCheck(address, size) != nullptr]. *)
Definition IsMemCheck (mcs : MemChecks.t) (address size : Z) : bool :=
  match MemChecks.GetMemCheck mcs address size with
  | Some _ => true
  | None => false
  end.

(** Modelled from the spec: the default value of the parameter [size] of
    [IsMemCheck] is given by the header, which is not part of the sources at
    hand; the specification queries a single address ([size=1]). *)
Definition IsMemCheck_default_size : Z := 1.

(** [PPCDebugInterface::ToggleMemCheck]. *)
Definition ToggleMemCheck (mcs : MemChecks.t) (address : Z) (read write log : bool)
  : MemChecks.t :=
  if negb (IsMemCheck mcs address IsMemCheck_default_size)
  then
    (* Add Memory Check *)
    let MemCheck :=
      {| start_address := address;
         end_address := address;
         is_break_on_read := read;
         is_break_on_write := write;
         log_on_hit := log;
         break_on_hit := true |} in
    MemChecks.Add mcs MemCheck
  else
    MemChecks.Remove mcs address.

(** A memory check covers [a]: some record's range contains it. *)
Definition covered (mcs : MemChecks.t) (a : Z) : bool :=
  existsb (fun mc => MemChecks.contains mc a) mcs.

(** ** The emulated machine and the collaborators *)

Module Core.

(** Modelled from the spec: [Core::State] is declared in Core/Core.h, which is
    not part of the sources at hand.  The facade names [State::Paused] only;
    the other enumerators are the states of a machine that is not paused. *)
Inductive State : Type := Uninitialized | Paused | Running | Stopping.

Definition State_eqb (s1 s2 : State) : bool :=
  match s1, s2 with
  | Uninitialized, Uninitialized | Paused, Paused
  | Running, Running | Stopping, Stopping => true
  | _, _ => false
  end.

End Core.

Module Symbol.

(** Modelled from the spec: [Symbol::Type] is declared in Common/SymbolDB.h,
    which is not part of the sources at hand.  A symbol is a function or it is
    not; the facade names [Type::Function] only. *)
Inductive Type_ : Type := Function | Data.

Definition Type_eqb (t1 t2 : Type_) : bool :=
  match t1, t2 with
  | Function, Function | Data, Data => true
  | _, _ => false
  end.

(** Modelled from the spec: [Symbol], declared in the same header; of its
    fields the facade reads the kind and the index, a C [int]. *)
Record t : Type := mk { type : Type_; index : Z }.

End Symbol.

(** What the facade reads from the rest of the emulator.  Every field is a
    collaborator that lives outside PPCDebugInterface.cpp; the facade never
    writes through them in the functions below, so one record of read
    functions is the whole environment. *)
Record Machine : Type := mkMachine {
  Core_IsRunningAndStarted : bool;
  Core_GetState : Core.State;
  PowerPC_HostIsRAMAddress : Z -> bool;
  PowerPC_HostRead_U32 : Z -> Z;
  PowerPC_HostRead_Instruction : Z -> Z;
  DSP_ReadARAM : Z -> Z;
  GekkoDisassembler_Disassemble : Z -> Z -> string;
  g_symbolDB_GetSymbolFromAddr : Z -> option Symbol.t
}.

(** The calls into the collaborators, as they are logged. *)
Inductive Call : Type :=
| CallIsRunningAndStarted
| CallGetState
| CallHostIsRAMAddress (address : Z)
| CallHostRead_U32 (address : Z)
| CallHostRead_Instruction (address : Z)
| CallReadARAM (address : Z)
| CallDisassemble (opcode address : Z)
| CallGetSymbolFromAddr (address : Z).

(** A call that reads the emulated memory or asks about its layout. *)
Definition touches_memory (c : Call) : bool :=
  match c with
  | CallHostIsRAMAddress _ | CallHostRead_U32 _
  | CallHostRead_Instruction _ | CallReadARAM _ => true
  | _ => false
  end.

(** A computation of the facade: it reads the machine and yields its result
    with the log of the calls it made, in order. *)
Definition Host (A : Type) : Type := Machine -> A * list Call.

#[global] Instance Host_ret : MRet Host := fun A a _ => (a, []).

#[global] Instance Host_bind : MBind Host := fun A B k c m =>
  let '(a, log1) := c m in
  let '(b, log2) := k a m in
  (b, log1 ++ log2).

(** The value and the log of a computation on a machine. *)
Definition value {A} (c : Host A) (m : Machine) : A := fst (c m).
Definition calls {A} (c : Host A) (m : Machine) : list Call := snd (c m).

(** [Core::IsRunningAndStarted()]. *)
Definition IsRunningAndStarted : Host bool :=
  fun m => (Core_IsRunningAndStarted m, [CallIsRunningAndStarted]).

(** [Core::GetState()]. *)
Definition GetState : Host Core.State :=
  fun m => (Core_GetState m, [CallGetState]).

(** [PowerPC::HostIsRAMAddress(address)]. *)
Definition HostIsRAMAddress (address : Z) : Host bool :=
  fun m => (PowerPC_HostIsRAMAddress m address, [CallHostIsRAMAddress address]).

(** [PowerPC::HostRead_U32(address)]; the result is a [u32]. *)
Definition HostRead_U32 (address : Z) : Host Z :=
  fun m => (u32 (PowerPC_HostRead_U32 m address), [CallHostRead_U32 address]).

(** [PowerPC::HostRead_Instruction(address)]; the result is a [u32]. *)
Definition HostRead_Instruction (address : Z) : Host Z :=
  fun m => (u32 (PowerPC_HostRead_Instruction m address),
            [CallHostRead_Instruction address]).

(** [DSP::ReadARAM(address)]; the result is a [u8]. *)
Definition ReadARAM (address : Z) : Host Z :=
  fun m => (u8 (DSP_ReadARAM m address), [CallReadARAM address]).

(** [GekkoDisassembler::Disassemble(opcode, address)]. *)
Definition GekkoDisassemble (opcode address : Z) : Host string :=
  fun m => (GekkoDisassembler_Disassemble m opcode address,
            [CallDisassemble opcode address]).

(** [g_symbolDB.GetSymbolFromAddr(address)]; [None] is the null pointer. *)
Definition GetSymbolFromAddr (address : Z) : Host (option Symbol.t) :=
  fun m => (g_symbolDB_GetSymbolFromAddr m address,
            [CallGetSymbolFromAddr address]).

(** Modelled from the spec: [UGeckoInstruction] is declared in
    Core/PowerPC/Gekko.h, which is not part of the sources at hand; its field
    [OPCD] is the primary opcode, the top 6 bits of the instruction word. *)
Definition OPCD (hex : Z) : Z := Z.land (Z.shiftr hex 26) 63.

(** ** Formatting *)

(** One uppercase hexadecimal digit, for [0 <= d < 16]. *)
Definition upper_hex_digit (d : Z) : ascii :=
  match String.get (Z.to_nat d) "0123456789ABCDEF" with
  | Some c => c
  | None => "?"%char
  end.

(** The [width] low hexadecimal digits of [v], most significant first. *)
Fixpoint upper_hex (width : nat) (v : Z) : string :=
  match width with
  | O => EmptyString
  | S w =>
      String (upper_hex_digit (Z.land (Z.shiftr v (4 * Z.of_nat w)) 15))
             (upper_hex w v)
  end.

(** [StringFromFormat("%08X%s", v, s)] for an [unsigned int v]: the
    conversion [%08X] pads with zeros to eight digits, and a 32-bit value has no
    more than eight, so the digits are exactly the eight nibbles of [v]. *)
Definition StringFromFormat_08X_s (v : Z) (s : string) : string :=
  String.append (upper_hex 8 (u32 v)) s.

(** ** The facade *)

(** [PPCDebugInterface::IsAlive]. *)
Definition IsAlive : Host bool := IsRunningAndStarted.

(** [PPCDebugInterface::Disassemble]. *)
Definition Disassemble (address : Z) : Host string :=
  alive ← IsAlive;
  if negb alive then mret ""%string
  else
    state ← GetState;
    if Core.State_eqb state Core.Paused then
      is_ram ← HostIsRAMAddress address;
      if negb is_ram then mret "(No RAM here)"%string
      else
        op ← HostRead_Instruction address;
        disasm ← GekkoDisassemble op address;
        let inst := op in
        if OPCD inst =? 1
        then mret (String.append disasm " (hle)")
        else mret disasm
    else mret "<unknown>"%string.

(** [PPCDebugInterface::ReadMemory]. *)
Definition ReadMemory (address : Z) : Host Z := HostRead_U32 address.

(** [x << n] on an [int]. *)
Definition int_shl (x n : Z) : Z := s32 (Z.shiftl x n).

(** [PPCDebugInterface::ReadExtraMemory].  The four bytes are promoted to [int]
    before they are shifted and or-ed, and the [int] is converted to
    [unsigned int] on return; [address + 1] is [unsigned int] arithmetic.
    C++ leaves the order of the four reads open; they are logged left to
    right. *)
Definition ReadExtraMemory (memory address : Z) : Host Z :=
  match memory with
  | 0 => HostRead_U32 address
  | 1 =>
      b0 ← ReadARAM address;
      b1 ← ReadARAM (u32 (address + 1));
      b2 ← ReadARAM (u32 (address + 2));
      b3 ← ReadARAM (u32 (address + 3));
      mret (u32 (Z.lor (Z.lor (Z.lor (int_shl b0 24) (int_shl b1 16))
                              (int_shl b2 8))
                       b3))
  | _ => mret 0
  end.

(** [PPCDebugInterface::ReadInstruction]. *)
Definition ReadInstruction (address : Z) : Host Z := HostRead_Instruction address.

(** [a || b] where [b] is a call: [b] is not made when [a] holds. *)
Definition orelse (a : bool) (b : Host bool) : Host bool :=
  if a then mret true else b.

(** [PPCDebugInterface::GetRawMemoryString]. *)
Definition GetRawMemoryString (memory address : Z) : Host string :=
  alive ← IsAlive;
  if (alive : bool) then
    let is_aram := negb (memory =? 0) in
    readable ← orelse is_aram (HostIsRAMAddress address);
    if (readable : bool) then
      word ← ReadExtraMemory memory address;
      mret (StringFromFormat_08X_s word
              (if is_aram then " (ARAM)" else ""))
    else mret (if is_aram then "--ARAM--" else "--------")%string
  else mret "<unknwn>"%string.  (* bad spelling - 8 chars *)

(** The palette of [GetColor]. *)
Definition colors : list Z :=
  [ 0xd0FFFF;  (* light cyan *)
    0xFFd0d0;  (* light red *)
    0xd8d8FF;  (* light blue *)
    0xFFd0FF;  (* light purple *)
    0xd0FFd0;  (* light green *)
    0xFFFFd0   (* light yellow *) ].

(** [array[i]] on a C array: outside the array the read is undefined, which
    is [None] here. *)
Definition array_read (array : list Z) (i : Z) : option Z :=
  if i <? 0 then None else nth_error array (Z.to_nat i).

(** [PPCDebugInterface::GetColor].  [%] on [int] truncates, it is [Z.rem]. *)
Definition GetColor (address : Z) : Host (option Z) :=
  alive ← IsAlive;
  if negb alive then mret (Some 0xFFFFFF)
  else
    is_ram ← HostIsRAMAddress address;
    if negb is_ram then mret (Some 0xeeeeee)
    else
      symbol ← GetSymbolFromAddr address;
      match symbol with
      | None => mret (Some 0xFFFFFF)
      | Some symbol =>
          if negb (Symbol.Type_eqb (Symbol.type symbol) Symbol.Function)
          then mret (Some 0xEEEEFF)
          else mret (array_read colors (Z.rem (Symbol.index symbol) 6))
      end.

(** ** Vocabulary of the statements *)

(** Some tail of [s] is [suffix]: [s] ends with [suffix]. *)
Fixpoint ends_with (s suffix : string) : bool :=
  String.eqb s suffix
  || match s with
     | EmptyString => false
     | String _ s' => ends_with s' suffix
     end.

(** The value of one uppercase hexadecimal digit; lowercase letters are not
    digits here. *)
Definition upper_hex_digit_value (c : ascii) : option Z :=
  let n := Z.of_N (N_of_ascii c) in
  if (48 <=? n) && (n <=? 57) then Some (n - 48)
  else if (65 <=? n) && (n <=? 70) then Some (n - 55)
  else None.

(** The number an uppercase hexadecimal numeral denotes, read after the
    digits that gave [acc]. *)
Fixpoint upper_hex_value_from (acc : Z) (s : string) : option Z :=
  match s with
  | EmptyString => Some acc
  | String c s' =>
      match upper_hex_digit_value c with
      | Some d => upper_hex_value_from (16 * acc + d) s'
      | None => None
      end
  end.

Definition upper_hex_value (s : string) : option Z := upper_hex_value_from 0 s.

(** [s] is the numeral of [v] in eight uppercase hexadecimal digits. *)
Definition eight_upper_hex_digits (s : string) (v : Z) : Prop :=
  String.length s = 8%nat /\ upper_hex_value s = Some v.

(** A machine for the examples: RAM from 0x80000000 up to 0x81800000; one
    word with primary opcode 1 at 0x80001000 and [blr] everywhere else;
    audio RAM holding the low byte of each address; function symbols numbered
    by blocks of 0x100 bytes below 0x80002000, one data symbol up to
    0x80003000 and none above. *)
Definition example_machine (alive : bool) (state : Core.State) : Machine :=
  {| Core_IsRunningAndStarted := alive;
     Core_GetState := state;
     PowerPC_HostIsRAMAddress :=
       fun a => (0x80000000 <=? a) && (a <? 0x81800000);
     PowerPC_HostRead_U32 :=
       fun a => if a =? 0x80001000 then 0x04001234 else 0x4E800020;
     PowerPC_HostRead_Instruction :=
       fun a => if a =? 0x80001000 then 0x04001234 else 0x4E800020;
     DSP_ReadARAM := fun a => a;
     GekkoDisassembler_Disassemble :=
       fun op _ => if op =? 0x4E800020 then "blr"%string else "(ill)"%string;
     g_symbolDB_GetSymbolFromAddr :=
       fun a =>
         if a <? 0x80002000
         then Some (Symbol.mk Symbol.Function ((a - 0x80000000) / 0x100))
         else if a <? 0x80003000 then Some (Symbol.mk Symbol.Data 0)
         else None |}.

(** The number of records whose range contains [a]. *)
Definition covering (mcs : MemChecks.t) (a : Z) : nat :=
  length (List.filter (fun mc => MemChecks.contains mc a) mcs).

(** A record as [ToggleMemCheck] builds them: a single address, breaking on
    hit. *)
Definition toggle_made (mc : TMemCheck) : Prop :=
  end_address mc = start_address mc /\ break_on_hit mc = true.

(** A set as toggling alone leaves it: every record is a single-address
    record that breaks on hit, and no two records are at the same address. *)
Definition toggled_only (mcs : MemChecks.t) : Prop :=
  Forall toggle_made mcs /\ List.NoDup (map start_address mcs).

(** The three colours [GetColor] answers outside the palette. *)
Definition neutral_colors : list Z := [0xFFFFFF; 0xeeeeee; 0xEEEEFF].

(** The example machine, alive and paused, with a disassembler whose text
    already ends in the suffix [Disassemble] appends. *)
Definition hle_text_machine : Machine :=
  let m := example_machine true Core.Paused in
  {| Core_IsRunningAndStarted := Core_IsRunningAndStarted m;
     Core_GetState := Core_GetState m;
     PowerPC_HostIsRAMAddress := PowerPC_HostIsRAMAddress m;
     PowerPC_HostRead_U32 := PowerPC_HostRead_U32 m;
     PowerPC_HostRead_Instruction := PowerPC_HostRead_Instruction m;
     DSP_ReadARAM := DSP_ReadARAM m;
     GekkoDisassembler_Disassemble := fun _ _ => "blr (hle)"%string;
     g_symbolDB_GetSymbolFromAddr := g_symbolDB_GetSymbolFromAddr m |}.


(** * Properties *)

(** ** Machine integers *)

Lemma u32_range x : 0 <= u32 x < 2 ^ 32.
Proof. unfold u32. apply Z.mod_pos_bound. lia. Qed.

Lemma u8_range x : 0 <= u8 x < 2 ^ 8.
Proof. unfold u8. apply Z.mod_pos_bound. lia. Qed.

Lemma u32_small x : 0 <= x < 2 ^ 32 -> u32 x = x.
Proof. intros H. unfold u32. now apply Z.mod_small. Qed.

Lemma u32_s32 x : u32 (s32 x) = u32 x.
Proof.
  unfold u32, s32.
  rewrite Zminus_mod, Zmod_mod, <- Zminus_mod.
  f_equal. lia.
Qed.


Lemma s32_small x : - 2 ^ 31 <= x < 2 ^ 31 -> s32 x = x.
Proof. intros H. unfold s32. rewrite Z.mod_small; lia. Qed.

Lemma u32_lor x y : u32 (Z.lor x y) = Z.lor (u32 x) (u32 y).
Proof.
  unfold u32. rewrite <- !Z.land_ones by lia.
  apply Z.land_lor_distr_l.
Qed.

(** Or-ing a value below [2 ^ k] into a multiple of [2 ^ k] adds it. *)
Lemma lor_low_bits hi lo k :
  0 <= k -> 0 <= lo < 2 ^ k -> Z.lor (hi * 2 ^ k) lo = hi * 2 ^ k + lo.
Proof.
  intros Hk Hlo. symmetry. apply Z.add_nocarry_lor.
  apply Z.bits_inj'. intros n Hn.
  rewrite Z.land_spec, Z.bits_0.
  destruct (Z.lt_ge_cases n k) as [Hlt | Hge].
  - rewrite Z.mul_pow2_bits_low by lia. reflexivity.
  - rewrite <- (Z.mod_small lo (2 ^ k)) by assumption.
    rewrite Z.mod_pow2_bits_high by lia. apply andb_false_r.
Qed.

(** The expression [ReadExtraMemory] builds from four bytes is their
    big-endian word. *)
Lemma pack_big_endian b0 b1 b2 b3 :
  0 <= b0 < 2 ^ 8 -> 0 <= b1 < 2 ^ 8 -> 0 <= b2 < 2 ^ 8 -> 0 <= b3 < 2 ^ 8 ->
  u32 (Z.lor (Z.lor (Z.lor (int_shl b0 24) (int_shl b1 16)) (int_shl b2 8)) b3)
  = b0 * 2 ^ 24 + b1 * 2 ^ 16 + b2 * 2 ^ 8 + b3.
Proof.
  intros H0 H1 H2 H3. unfold int_shl.
  rewrite !u32_lor, !u32_s32, !Z.shiftl_mul_pow2 by lia.
  rewrite !u32_small by lia.
  rewrite (lor_low_bits b0 (b1 * 2 ^ 16) 24) by lia.
  replace (b0 * 2 ^ 24 + b1 * 2 ^ 16) with ((b0 * 2 ^ 8 + b1) * 2 ^ 16) by lia.
  rewrite (lor_low_bits _ (b2 * 2 ^ 8) 16) by lia.
  replace ((b0 * 2 ^ 8 + b1) * 2 ^ 16 + b2 * 2 ^ 8)
    with (((b0 * 2 ^ 8 + b1) * 2 ^ 8 + b2) * 2 ^ 8) by lia.
  rewrite (lor_low_bits _ b3 8) by lia.
  lia.
Qed.

(** ** The hexadecimal numeral *)

Lemma upper_hex_digit_value_digit d :
  0 <= d < 16 -> upper_hex_digit_value (upper_hex_digit d) = Some d.
Proof.
  intros H.
  assert (E : d = 0 \/ d = 1 \/ d = 2 \/ d = 3 \/ d = 4 \/ d = 5 \/ d = 6
              \/ d = 7 \/ d = 8 \/ d = 9 \/ d = 10 \/ d = 11 \/ d = 12
              \/ d = 13 \/ d = 14 \/ d = 15) by lia.
  repeat (destruct E as [-> | E]; [reflexivity |]).
  now subst.
Qed.

Lemma length_upper_hex width v : String.length (upper_hex width v) = width.
Proof. induction width; simpl; auto. Qed.

Lemma nibble_spec v w :
  Z.land (Z.shiftr v (4 * Z.of_nat w)) 15 = (v / 16 ^ Z.of_nat w) mod 16.
Proof.
  rewrite Z.shiftr_div_pow2 by lia.
  change 15 with (Z.ones 4). rewrite Z.land_ones by lia.
  rewrite Z.pow_mul_r by lia. reflexivity.
Qed.

Lemma upper_hex_value_from_upper_hex width v acc :
  upper_hex_value_from acc (upper_hex width v)
  = Some (acc * 16 ^ Z.of_nat width + v mod 16 ^ Z.of_nat width).
Proof.
  revert acc. induction width as [| w IH]; intros acc.
  - simpl. rewrite Z.mod_1_r. f_equal. lia.
  - cbn [upper_hex upper_hex_value_from].
    rewrite nibble_spec, upper_hex_digit_value_digit
      by (apply Z.mod_pos_bound; lia).
    rewrite IH. f_equal.
    rewrite Nat2Z.inj_succ, Z.pow_succ_r by lia.
    rewrite (Z.mul_comm 16 (16 ^ Z.of_nat w)).
    rewrite Z.rem_mul_r by lia.
    lia.
Qed.

Lemma upper_hex_8_spec v :
  0 <= v < 2 ^ 32 -> eight_upper_hex_digits (upper_hex 8 v) v.
Proof.
  intros H. split.
  - apply length_upper_hex.
  - unfold upper_hex_value.
    rewrite upper_hex_value_from_upper_hex.
    f_equal. change (16 ^ Z.of_nat 8) with (2 ^ 32).
    rewrite Z.mod_small; lia.
Qed.

Lemma StringFromFormat_08X_s_spec v s :
  0 <= v < 2 ^ 32 ->
  exists digits,
    StringFromFormat_08X_s v s = String.append digits s
    /\ eight_upper_hex_digits digits v.
Proof.
  intros H. exists (upper_hex 8 v). split.
  - unfold StringFromFormat_08X_s. now rewrite u32_small.
  - now apply upper_hex_8_spec.
Qed.
Lemma IsAddressBreakPoint_Add (bps : BreakPoints.t) a b :
  BreakPoints.IsAddressBreakPoint (BreakPoints.Add bps a) b
  = bool_decide (b = a) || BreakPoints.IsAddressBreakPoint bps b.
Proof.
  unfold BreakPoints.IsAddressBreakPoint, BreakPoints.Add.
  apply eq_true_iff_eq.
  rewrite orb_true_iff, !bool_decide_eq_true. set_solver.
Qed.

Lemma IsAddressBreakPoint_Remove (bps : BreakPoints.t) a b :
  BreakPoints.IsAddressBreakPoint (BreakPoints.Remove bps a) b
  = negb (bool_decide (b = a)) && BreakPoints.IsAddressBreakPoint bps b.
Proof.
  unfold BreakPoints.IsAddressBreakPoint, BreakPoints.Remove.
  apply eq_true_iff_eq.
  rewrite andb_true_iff, negb_true_iff, bool_decide_eq_false, !bool_decide_eq_true.
  set_solver.
Qed.

Lemma ToggleBreakpoint_present (bps : BreakPoints.t) a :
  a ∈ bps -> ToggleBreakpoint bps a = bps ∖ {[a]}.
Proof.
  intros H. unfold ToggleBreakpoint, BreakPoints.IsAddressBreakPoint.
  now rewrite bool_decide_eq_true_2.
Qed.

Lemma ToggleBreakpoint_absent (bps : BreakPoints.t) a :
  a ∉ bps -> ToggleBreakpoint bps a = {[a]} ∪ bps.
Proof.
  intros H. unfold ToggleBreakpoint, BreakPoints.IsAddressBreakPoint.
  now rewrite bool_decide_eq_false_2.
Qed.

Lemma ToggleBreakpoint_twice (bps : BreakPoints.t) a :
  ToggleBreakpoint (ToggleBreakpoint bps a) a = bps.
Proof.
  destruct (decide (a ∈ bps)) as [Hin | Hout].
  - rewrite (ToggleBreakpoint_present bps a Hin).
    rewrite ToggleBreakpoint_absent by set_solver.
    apply set_eq. intros x. destruct (decide (x = a)); set_solver.
  - rewrite (ToggleBreakpoint_absent bps a Hout).
    rewrite ToggleBreakpoint_present by set_solver.
    set_solver.
Qed.

(** C1. One [ToggleBreakpoint a] flips the membership of [a] (it removes [a]
    when present and adds it when absent) and leaves every other address as it
    was; two in a row give back the breakpoint set they started from, so the
    answer of [IsBreakpoint] is restored at every address. *)
Theorem ToggleBreakpoint_involution (bps : BreakPoints.t) (a : Z) :
  IsBreakpoint (ToggleBreakpoint bps a) a = negb (IsBreakpoint bps a)
  /\ (forall b, b <> a ->
        IsBreakpoint (ToggleBreakpoint bps a) b = IsBreakpoint bps b)
  /\ ToggleBreakpoint (ToggleBreakpoint bps a) a = bps
  /\ (forall b, IsBreakpoint (ToggleBreakpoint (ToggleBreakpoint bps a) a) b
                = IsBreakpoint bps b).
Proof.
  unfold IsBreakpoint. repeat split.
  - unfold ToggleBreakpoint.
    destruct (BreakPoints.IsAddressBreakPoint bps a) eqn:E.
    + rewrite IsAddressBreakPoint_Remove, E.
      now rewrite bool_decide_eq_true_2.
    + rewrite IsAddressBreakPoint_Add, E.
      now rewrite bool_decide_eq_true_2.
  - intros b Hb. unfold ToggleBreakpoint.
    destruct (BreakPoints.IsAddressBreakPoint bps a).
    + rewrite IsAddressBreakPoint_Remove.
      now rewrite bool_decide_eq_false_2.
    + rewrite IsAddressBreakPoint_Add.
      now rewrite bool_decide_eq_false_2.
  - apply ToggleBreakpoint_twice.
  - intros b. now rewrite ToggleBreakpoint_twice.
Qed.

Lemma overlaps_size_1 mc a :
  MemChecks.overlaps mc a 1 = MemChecks.contains mc a.
Proof.
  unfold MemChecks.overlaps, MemChecks.contains. f_equal.
  destruct (Z.ltb_spec (start_address mc) (a + 1)),
           (Z.leb_spec (start_address mc) a); auto; lia.
Qed.

Lemma IsMemCheck_covered mcs a :
  IsMemCheck mcs a IsMemCheck_default_size = covered mcs a.
Proof.
  unfold IsMemCheck, covered, IsMemCheck_default_size.
  induction mcs as [| mc rest IH]; simpl; auto.
  rewrite overlaps_size_1.
  destruct (MemChecks.contains mc a); auto.
Qed.

Lemma Remove_not_covered mcs a :
  covered mcs a = false -> MemChecks.Remove mcs a = mcs.
Proof.
  unfold covered.
  induction mcs as [| mc rest IH]; simpl; auto.
  intros H. apply orb_false_iff in H as [H1 H2].
  rewrite H1. f_equal. auto.
Qed.

Lemma Remove_app_not_covered mcs mc a :
  covered mcs a = false -> MemChecks.contains mc a = true ->
  MemChecks.Remove (mcs ++ [mc]) a = mcs.
Proof.
  unfold covered.
  induction mcs as [| m rest IH]; simpl; intros H Hc.
  - now rewrite Hc.
  - apply orb_false_iff in H as [H1 H2].
    rewrite H1. f_equal. auto.
Qed.

Lemma covered_app mcs1 mcs2 a :
  covered (mcs1 ++ mcs2) a = covered mcs1 a || covered mcs2 a.
Proof. unfold covered. apply existsb_app. Qed.

Lemma contains_point a r w l b :
  MemChecks.contains (mkTMemCheck a a r w l b) a = true.
Proof.
  unfold MemChecks.contains. simpl.
  rewrite Z.leb_refl. reflexivity.
Qed.

Lemma ToggleMemCheck_absent mcs a r w l :
  covered mcs a = false ->
  ToggleMemCheck mcs a r w l = mcs ++ [mkTMemCheck a a r w l true].
Proof.
  intros H. unfold ToggleMemCheck.
  now rewrite IsMemCheck_covered, H.
Qed.

Lemma ToggleMemCheck_present mcs a r w l :
  covered mcs a = true ->
  ToggleMemCheck mcs a r w l = MemChecks.Remove mcs a.
Proof.
  intros H. unfold ToggleMemCheck.
  now rewrite IsMemCheck_covered, H.
Qed.

Lemma covered_point a r w l b : covered [mkTMemCheck a a r w l b] a = true.
Proof. unfold covered. simpl. now rewrite contains_point. Qed.

(** The record [GetMemCheck] finds for a single address is the one [Remove]
    takes out: everything before it misses the address. *)
Lemma Remove_GetMemCheck mcs a mc :
  MemChecks.GetMemCheck mcs a 1 = Some mc ->
  exists before after,
    mcs = before ++ mc :: after
    /\ covered before a = false
    /\ MemChecks.Remove mcs a = before ++ after.
Proof.
  induction mcs as [| m rest IH]; simpl; intros H; [discriminate |].
  rewrite overlaps_size_1 in H.
  destruct (MemChecks.contains m a) eqn:E.
  - injection H as ->. exists [], rest. auto.
  - destruct (IH H) as (before & after & -> & Hc & Hr).
    exists (m :: before), after. repeat split.
    + unfold covered in *. simpl. now rewrite E, Hc.
    + simpl. now rewrite Hr.
Qed.

(** C3. When no memory check covers [a], [ToggleMemCheck a read write log]
    appends exactly one record to the ones already there: the single-address
    record with the three flags as given and [break_on_hit] set. *)
Theorem ToggleMemCheck_adds_point (mcs : MemChecks.t) (a : Z) (read write log : bool) :
  IsMemCheck mcs a IsMemCheck_default_size = false ->
  exists mc,
    ToggleMemCheck mcs a read write log = mcs ++ [mc]
    /\ start_address mc = a /\ end_address mc = a
    /\ is_break_on_read mc = read /\ is_break_on_write mc = write
    /\ log_on_hit mc = log /\ break_on_hit mc = true.
Proof.
  intros H. rewrite IsMemCheck_covered in H.
  exists (mkTMemCheck a a read write log true).
  rewrite ToggleMemCheck_absent by assumption.
  repeat split.
Qed.

Lemma ToggleMemCheck_adds_point_witness :
  exists mc,
    ToggleMemCheck [mkTMemCheck 0x2000 0x20ff true false true false]
                   0x1000 true false true
    = [mkTMemCheck 0x2000 0x20ff true false true false] ++ [mc]
    /\ start_address mc = 0x1000 /\ end_address mc = 0x1000
    /\ is_break_on_read mc = true /\ is_break_on_write mc = false
    /\ log_on_hit mc = true /\ break_on_hit mc = true.
Proof.
  apply (ToggleMemCheck_adds_point
           [mkTMemCheck 0x2000 0x20ff true false true false]
           0x1000 true false true).
  reflexivity.
Defined.

(** C2, as amended.  Starting from a set in which no memory check covers [a],
    [ToggleMemCheck a r w l] followed by [ToggleMemCheck a r' w' l'] gives
    back the set, whatever the two flag triples.  When a memory check covers
    [a], [ToggleMemCheck] takes out the record [GetMemCheck] finds and nothing
    else, and the flags passed have no effect on the result. *)
Theorem ToggleMemCheck_twice_from_absent
    (mcs : MemChecks.t) (a : Z) (r w l r' w' l' : bool) :
  (IsMemCheck mcs a IsMemCheck_default_size = false ->
     ToggleMemCheck (ToggleMemCheck mcs a r w l) a r' w' l' = mcs)
  /\ (forall mc,
        MemChecks.GetMemCheck mcs a IsMemCheck_default_size = Some mc ->
        ToggleMemCheck mcs a r w l = ToggleMemCheck mcs a r' w' l'
        /\ exists before after,
             mcs = before ++ mc :: after
             /\ IsMemCheck before a IsMemCheck_default_size = false
             /\ ToggleMemCheck mcs a r w l = before ++ after).
Proof.
  split.
  - intros H. rewrite IsMemCheck_covered in H.
    rewrite (ToggleMemCheck_absent mcs a r w l H).
    rewrite ToggleMemCheck_present.
    + apply Remove_app_not_covered; [assumption | apply contains_point].
    + rewrite covered_app, covered_point. apply orb_true_r.
  - intros mc Hget.
    assert (Hcov : covered mcs a = true).
    { rewrite <- IsMemCheck_covered. unfold IsMemCheck. now rewrite Hget. }
    rewrite !ToggleMemCheck_present by assumption.
    split; [reflexivity |].
    destruct (Remove_GetMemCheck mcs a mc Hget) as (before & after & E & Hc & Hr).
    exists before, after. now rewrite IsMemCheck_covered.
Qed.

Lemma ToggleMemCheck_twice_from_absent_witness :
  ToggleMemCheck
    (ToggleMemCheck [mkTMemCheck 0x2000 0x20ff true false true false]
                    0x1000 true true false)
    0x1000 false false true
  = [mkTMemCheck 0x2000 0x20ff true false true false]
  /\ ToggleMemCheck [mkTMemCheck 0x1000 0x1003 true true false true]
                    0x1001 true false false
     = ToggleMemCheck [mkTMemCheck 0x1000 0x1003 true true false true]
                      0x1001 false true true.
Proof.
  split.
  - apply (ToggleMemCheck_twice_from_absent
             [mkTMemCheck 0x2000 0x20ff true false true false]
             0x1000 true true false false false true).
    reflexivity.
  - apply (ToggleMemCheck_twice_from_absent
             [mkTMemCheck 0x1000 0x1003 true true false true]
             0x1001 true false false false true true)
      with (mc := mkTMemCheck 0x1000 0x1003 true true false true).
    reflexivity.
Defined.

(** C2 as first stated fails when a memory check covers [a]: the first toggle
    removes the record, the second builds a new one from its own flags.  Here
    the set holds the point check a toggle with flags (read, write, no log)
    creates at 0x1000; toggling twice with other flags on the second call
    leaves a record with those other flags. *)
Lemma ToggleMemCheck_twice_counterexample :
  let mcs := [mkTMemCheck 0x1000 0x1000 true true false true] in
  ToggleMemCheck (ToggleMemCheck mcs 0x1000 true true false) 0x1000 false false true
  = [mkTMemCheck 0x1000 0x1000 false false true true]
  /\ ToggleMemCheck (ToggleMemCheck mcs 0x1000 true true false) 0x1000 false false true
     <> mcs.
Proof.
  split; [reflexivity | discriminate].
Qed.

(** With a range the loss shows in the coverage too: after two toggles at
    0x1001 the range 0x1000..0x1003 has become the point 0x1001. *)
Example ToggleMemCheck_twice_shrinks_range :
  let mcs := [mkTMemCheck 0x1000 0x1003 true true false true] in
  let mcs' := ToggleMemCheck (ToggleMemCheck mcs 0x1001 true true false)
                             0x1001 true true false in
  mcs' = [mkTMemCheck 0x1001 0x1001 true true false true]
  /\ IsMemCheck mcs 0x1000 1 = true /\ IsMemCheck mcs' 0x1000 1 = false.
Proof. repeat split. Qed.

(** ** Running the facade *)

(** Unfolds the monad and the collaborator calls of a facade function. *)
Ltac host_unfold :=
  unfold value, calls;
  unfold orelse, IsAlive;
  unfold mbind, mret, Host_bind, Host_ret,
    IsRunningAndStarted, GetState, HostIsRAMAddress, HostRead_U32,
    HostRead_Instruction, ReadARAM, GekkoDisassemble, GetSymbolFromAddr.

(** One step of a run: the answer [H] of a collaborator is put in, and the
    monad's plumbing is reduced; arithmetic is left alone. *)
Ltac host_step H :=
  rewrite H; cbn beta iota zeta delta [app negb fst snd Core.State_eqb Symbol.Type_eqb].

Lemma State_eqb_eq s1 s2 : Core.State_eqb s1 s2 = true <-> s1 = s2.
Proof. destruct s1, s2; simpl; split; congruence. Qed.

Lemma State_eqb_neq s1 s2 : Core.State_eqb s1 s2 = false <-> s1 <> s2.
Proof. destruct s1, s2; simpl; split; congruence. Qed.


Lemma Type_eqb_neq t1 t2 : Symbol.Type_eqb t1 t2 = false <-> t1 <> t2.
Proof. destruct t1, t2; simpl; split; congruence. Qed.

(** *** Disassemble *)

Lemma Disassemble_not_alive address m :
  Core_IsRunningAndStarted m = false ->
  Disassemble address m = (""%string, [CallIsRunningAndStarted]).
Proof. intros H. unfold Disassemble. host_unfold. now host_step H. Qed.

Lemma Disassemble_not_paused address m :
  Core_IsRunningAndStarted m = true ->
  Core_GetState m <> Core.Paused ->
  Disassemble address m
  = ("<unknown>"%string, [CallIsRunningAndStarted; CallGetState]).
Proof.
  intros H1 H2. apply State_eqb_neq in H2.
  unfold Disassemble. host_unfold. host_step H1. now host_step H2.
Qed.

Lemma Disassemble_no_ram address m :
  Core_IsRunningAndStarted m = true ->
  Core_GetState m = Core.Paused ->
  PowerPC_HostIsRAMAddress m address = false ->
  Disassemble address m
  = ("(No RAM here)"%string,
     [CallIsRunningAndStarted; CallGetState; CallHostIsRAMAddress address]).
Proof.
  intros H1 H2 H3.
  unfold Disassemble. host_unfold.
  host_step H1. host_step H2. now host_step H3.
Qed.

Lemma Disassemble_ram address m :
  Core_IsRunningAndStarted m = true ->
  Core_GetState m = Core.Paused ->
  PowerPC_HostIsRAMAddress m address = true ->
  let op := u32 (PowerPC_HostRead_Instruction m address) in
  let text := GekkoDisassembler_Disassemble m op address in
  Disassemble address m
  = (if OPCD op =? 1 then String.append text " (hle)" else text,
     [CallIsRunningAndStarted; CallGetState; CallHostIsRAMAddress address;
      CallHostRead_Instruction address; CallDisassemble op address]).
Proof.
  intros H1 H2 H3 op text.
  unfold Disassemble. host_unfold.
  host_step H1. host_step H2. host_step H3.
  fold op. fold text. now destruct (OPCD op =? 1).
Qed.

(** C4. [Disassemble] answers the empty string when the machine is not alive;
    ["(No RAM here)"] when it is alive and paused and the address is not a RAM
    address; ["<unknown>"] when it is alive and not paused, and then the only
    calls made are the liveness and the state queries: memory is not
    touched. *)
Theorem Disassemble_sentinels (address : Z) (m : Machine) :
  (Core_IsRunningAndStarted m = false ->
     value (Disassemble address) m = ""%string)
  /\ (Core_IsRunningAndStarted m = true ->
      Core_GetState m = Core.Paused ->
      PowerPC_HostIsRAMAddress m address = false ->
      value (Disassemble address) m = "(No RAM here)"%string)
  /\ (Core_IsRunningAndStarted m = true ->
      Core_GetState m <> Core.Paused ->
      value (Disassemble address) m = "<unknown>"%string
      /\ calls (Disassemble address) m = [CallIsRunningAndStarted; CallGetState]
      /\ forallb (fun c => negb (touches_memory c))
                 (calls (Disassemble address) m) = true).
Proof.
  unfold value, calls. repeat split.
  - intros H. now rewrite Disassemble_not_alive.
  - intros H1 H2 H3. now rewrite Disassemble_no_ram.
  - now rewrite Disassemble_not_paused.
  - now rewrite Disassemble_not_paused.
  - now rewrite Disassemble_not_paused.
Qed.

Lemma Disassemble_sentinels_witness :
  value (Disassemble 0x80001000) (example_machine false Core.Running) = ""%string
  /\ value (Disassemble 0x1000) (example_machine true Core.Paused)
     = "(No RAM here)"%string
  /\ value (Disassemble 0x80001000) (example_machine true Core.Running)
     = "<unknown>"%string.
Proof.
  split; [| split].
  - apply (Disassemble_sentinels 0x80001000 (example_machine false Core.Running)).
    reflexivity.
  - apply (Disassemble_sentinels 0x1000 (example_machine true Core.Paused));
      reflexivity.
  - apply (Disassemble_sentinels 0x80001000 (example_machine true Core.Running));
      [reflexivity | discriminate].
Defined.

Lemma OPCD_top_6_bits op : 0 <= op < 2 ^ 32 -> OPCD op = op / 2 ^ 26.
Proof.
  intros H. unfold OPCD.
  rewrite Z.shiftr_div_pow2 by lia.
  change 63 with (Z.ones 6). rewrite Z.land_ones by lia.
  apply Z.mod_small. split.
  - apply Z.div_pos; lia.
  - apply Z.div_lt_upper_bound; lia.
Qed.

Lemma ends_with_refl s : ends_with s s = true.
Proof. destruct s; cbn [ends_with]; now rewrite String.eqb_refl. Qed.

Lemma ends_with_append s suffix : ends_with (String.append s suffix) suffix = true.
Proof.
  induction s as [| c s IH].
  - apply ends_with_refl.
  - change (String.append (String c s) suffix)
      with (String c (String.append s suffix)).
    cbn [ends_with]. rewrite IH. apply orb_true_r.
Qed.

Lemma length_append s1 s2 :
  String.length (String.append s1 s2) = (String.length s1 + String.length s2)%nat.
Proof. induction s1; simpl; auto. Qed.

Lemma append_nonempty_neq s suffix :
  suffix <> EmptyString -> String.append s suffix <> s.
Proof.
  intros Hne Heq. apply (f_equal String.length) in Heq.
  rewrite length_append in Heq.
  destruct suffix; [congruence | simpl in Heq; lia].
Qed.

(** C5, as amended.  For a RAM address on a live, paused machine, let [op] be
    the word fetched there and [text] what the disassembler makes of it.  The
    top six bits of [op] are its primary opcode; when they are 1 the result is
    [text] followed by [" (hle)"], hence ends with it, and otherwise the
    result is exactly [text].  So the suffix is appended if and only if the opcode is 1,
    and the result ends with it if and only if the opcode is 1 whenever the
    disassembler's own text does not already end that way. *)
Theorem Disassemble_hle_suffix (address : Z) (m : Machine) :
  Core_IsRunningAndStarted m = true ->
  Core_GetState m = Core.Paused ->
  PowerPC_HostIsRAMAddress m address = true ->
  let op := u32 (PowerPC_HostRead_Instruction m address) in
  let text := GekkoDisassembler_Disassemble m op address in
  let result := value (Disassemble address) m in
  OPCD op = op / 2 ^ 26
  /\ (OPCD op = 1 ->
        result = String.append text " (hle)"
        /\ ends_with result " (hle)" = true)
  /\ (OPCD op <> 1 -> result = text)
  /\ (result = String.append text " (hle)" <-> OPCD op = 1)
  /\ (ends_with text " (hle)" = false ->
        (ends_with result " (hle)" = true <-> OPCD op = 1)).
Proof.
  intros H1 H2 H3 op text result.
  assert (Hres : result = if OPCD op =? 1
                          then String.append text " (hle)" else text).
  { unfold result, value. now rewrite Disassemble_ram. }
  split; [apply OPCD_top_6_bits, u32_range |].
  clearbody result. subst result.
  destruct (Z.eqb_spec (OPCD op) 1) as [E | E].
  - assert (Hends : ends_with (String.append text " (hle)") " (hle)" = true)
      by apply ends_with_append.
    tauto.
  - assert (Hneq : text <> String.append text " (hle)").
    { intros Habs. symmetry in Habs.
      now apply append_nonempty_neq in Habs. }
    repeat split; try tauto; try congruence.
Qed.

Lemma Disassemble_hle_suffix_witness :
  value (Disassemble 0x80001000) (example_machine true Core.Paused)
  = "(ill) (hle)"%string
  /\ value (Disassemble 0x80001004) (example_machine true Core.Paused)
     = "blr"%string.
Proof.
  split.
  - apply (Disassemble_hle_suffix 0x80001000 (example_machine true Core.Paused));
      reflexivity.
  - apply (Disassemble_hle_suffix 0x80001004 (example_machine true Core.Paused));
      try reflexivity.
    vm_compute. discriminate.
Defined.

(** C5 as first stated fails in one direction: the suffix is appended only for
    opcode 1, but a result can end with [" (hle)"] without it.  Here the word
    at 0x80001004 is [blr], of primary opcode 19, and the disassembler's own
    text for it ends that way; nothing is appended and the result still ends
    with [" (hle)"]. *)
Lemma Disassemble_hle_suffix_counterexample :
  let m := hle_text_machine in
  let op := u32 (PowerPC_HostRead_Instruction m 0x80001004) in
  let result := value (Disassemble 0x80001004) m in
  Core_IsRunningAndStarted m = true
  /\ Core_GetState m = Core.Paused
  /\ PowerPC_HostIsRAMAddress m 0x80001004 = true
  /\ OPCD op = 19
  /\ result = GekkoDisassembler_Disassemble m op 0x80001004
  /\ result = "blr (hle)"%string
  /\ ends_with result " (hle)" = true
  /\ ~ (ends_with result " (hle)" = true <-> OPCD op = 1).
Proof.
  vm_compute. do 7 (split; [reflexivity |]).
  intros [H _]. specialize (H eq_refl). discriminate H.
Qed.

(** *** ReadExtraMemory *)

Lemma ReadExtraMemory_other_space memory address :
  memory <> 0 -> memory <> 1 -> ReadExtraMemory memory address = mret 0.
Proof.
  intros H0 H1. unfold ReadExtraMemory.
  destruct memory as [| [p | p |] | p]; first [reflexivity | congruence].
Qed.

Lemma ReadExtraMemory_ARAM address m :
  ReadExtraMemory 1 address m
  = (u8 (DSP_ReadARAM m address) * 2 ^ 24
     + u8 (DSP_ReadARAM m (u32 (address + 1))) * 2 ^ 16
     + u8 (DSP_ReadARAM m (u32 (address + 2))) * 2 ^ 8
     + u8 (DSP_ReadARAM m (u32 (address + 3))),
     [CallReadARAM address; CallReadARAM (u32 (address + 1));
      CallReadARAM (u32 (address + 2)); CallReadARAM (u32 (address + 3))]).
Proof.
  unfold ReadExtraMemory. host_unfold.
  cbn beta iota zeta delta [app].
  rewrite pack_big_endian by apply u8_range.
  reflexivity.
Qed.

Lemma ReadExtraMemory_range memory address m :
  0 <= value (ReadExtraMemory memory address) m < 2 ^ 32.
Proof.
  destruct (Z.eq_dec memory 0) as [-> | H0].
  { apply u32_range. }
  destruct (Z.eq_dec memory 1) as [-> | H1].
  { unfold value. rewrite ReadExtraMemory_ARAM. cbn [fst].
    pose proof (u8_range (DSP_ReadARAM m address)).
    pose proof (u8_range (DSP_ReadARAM m (u32 (address + 1)))).
    pose proof (u8_range (DSP_ReadARAM m (u32 (address + 2)))).
    pose proof (u8_range (DSP_ReadARAM m (u32 (address + 3)))).
    lia. }
  rewrite ReadExtraMemory_other_space by assumption.
  unfold value. simpl. lia.
Qed.

(** C7. Space 0 is [ReadMemory]; space 1 reads the four audio-RAM bytes at
    [address], [address + 1], [address + 2] and [address + 3] (the additions
    are on [unsigned int]) and packs them big-endian, the byte at [address]
    in the top eight bits; every other space gives 0, and reads nothing. *)
Theorem ReadExtraMemory_spaces (address : Z) (m : Machine) :
  ReadExtraMemory 0 address m = ReadMemory address m
  /\ value (ReadExtraMemory 1 address) m
     = u8 (DSP_ReadARAM m address) * 2 ^ 24
       + u8 (DSP_ReadARAM m (u32 (address + 1))) * 2 ^ 16
       + u8 (DSP_ReadARAM m (u32 (address + 2))) * 2 ^ 8
       + u8 (DSP_ReadARAM m (u32 (address + 3)))
  /\ calls (ReadExtraMemory 1 address) m
     = [CallReadARAM address; CallReadARAM (u32 (address + 1));
        CallReadARAM (u32 (address + 2)); CallReadARAM (u32 (address + 3))]
  /\ (forall space, space <> 0 -> space <> 1 ->
        ReadExtraMemory space address m = (0, [])).
Proof.
  unfold value, calls. rewrite ReadExtraMemory_ARAM.
  repeat split.
  intros space H0 H1. now rewrite ReadExtraMemory_other_space.
Qed.

Lemma ReadExtraMemory_spaces_witness :
  ReadExtraMemory 2 0x1000 (example_machine true Core.Running) = (0, [])
  /\ ReadExtraMemory (-1) 0x1000 (example_machine true Core.Running) = (0, []).
Proof.
  split.
  - apply (ReadExtraMemory_spaces 0x1000 (example_machine true Core.Running));
      discriminate.
  - apply (ReadExtraMemory_spaces 0x1000 (example_machine true Core.Running));
      discriminate.
Defined.

(** *** GetRawMemoryString *)

Lemma append_empty_r s : String.append s "" = s.
Proof.
  induction s as [| c s IH]; [reflexivity |].
  change (String c (String.append s "") = String c s). now rewrite IH.
Qed.

Lemma GetRawMemoryString_not_alive memory address m :
  Core_IsRunningAndStarted m = false ->
  GetRawMemoryString memory address m
  = ("<unknwn>"%string, [CallIsRunningAndStarted]).
Proof.
  intros H. unfold GetRawMemoryString. host_unfold. now host_step H.
Qed.

Lemma GetRawMemoryString_primary_invalid address m :
  Core_IsRunningAndStarted m = true ->
  PowerPC_HostIsRAMAddress m address = false ->
  GetRawMemoryString 0 address m
  = ("--------"%string,
     [CallIsRunningAndStarted; CallHostIsRAMAddress address]).
Proof.
  intros H1 H2. unfold GetRawMemoryString. host_unfold.
  host_step H1. change (0 =? 0) with true.
  cbn beta iota zeta delta [negb]. now host_step H2.
Qed.

Lemma GetRawMemoryString_primary_valid address m :
  Core_IsRunningAndStarted m = true ->
  PowerPC_HostIsRAMAddress m address = true ->
  GetRawMemoryString 0 address m
  = (upper_hex 8 (u32 (PowerPC_HostRead_U32 m address)),
     [CallIsRunningAndStarted; CallHostIsRAMAddress address;
      CallHostRead_U32 address]).
Proof.
  intros H1 H2. unfold GetRawMemoryString. host_unfold.
  host_step H1. change (0 =? 0) with true.
  cbn beta iota zeta delta [negb]. host_step H2.
  unfold ReadExtraMemory, HostRead_U32, StringFromFormat_08X_s.
  cbn beta iota zeta delta [app].
  rewrite append_empty_r, (u32_small (u32 _)) by apply u32_range.
  reflexivity.
Qed.

Lemma GetRawMemoryString_secondary memory address m :
  Core_IsRunningAndStarted m = true ->
  memory <> 0 ->
  GetRawMemoryString memory address m
  = (String.append (upper_hex 8 (value (ReadExtraMemory memory address) m))
                   " (ARAM)",
     CallIsRunningAndStarted :: calls (ReadExtraMemory memory address) m).
Proof.
  intros H1 H2. apply Z.eqb_neq in H2.
  unfold GetRawMemoryString. host_unfold.
  host_step H1. host_step H2.
  pose proof (ReadExtraMemory_range memory address m) as Hr.
  unfold value in Hr.
  destruct (ReadExtraMemory memory address m) as [word log].
  cbn [fst snd] in *. unfold StringFromFormat_08X_s.
  now rewrite u32_small, app_nil_r.
Qed.

Lemma not_eight_upper_hex_digits_ARAM v :
  ~ eight_upper_hex_digits "--ARAM--" v.
Proof. intros [_ H]. discriminate H. Qed.

(** C6, as amended.  [GetRawMemoryString] answers ["<unknwn>"] when the
    machine is not alive.  When it is alive: for the primary space and an
    address that is not RAM, ["--------"]; for the primary space and a RAM
    address, the word [ReadExtraMemory] reads, as eight uppercase
    hexadecimal digits; for a secondary space, whatever the address, the same
    eight digits followed by [" (ARAM)"].  ["--ARAM--"] is never the
    answer. *)
Theorem GetRawMemoryString_cases (memory address : Z) (m : Machine) :
  let result := value (GetRawMemoryString memory address) m in
  let word := value (ReadExtraMemory memory address) m in
  (Core_IsRunningAndStarted m = false -> result = "<unknwn>"%string)
  /\ (Core_IsRunningAndStarted m = true -> memory = 0 ->
      PowerPC_HostIsRAMAddress m address = false ->
      result = "--------"%string)
  /\ (Core_IsRunningAndStarted m = true -> memory = 0 ->
      PowerPC_HostIsRAMAddress m address = true ->
      eight_upper_hex_digits result word)
  /\ (Core_IsRunningAndStarted m = true -> memory <> 0 ->
      exists digits,
        result = String.append digits " (ARAM)"
        /\ eight_upper_hex_digits digits word)
  /\ result <> "--ARAM--"%string.
Proof.
  intros result word.
  assert (Hdead : Core_IsRunningAndStarted m = false ->
                  result = "<unknwn>"%string).
  { intros H. unfold result, value.
    now rewrite GetRawMemoryString_not_alive. }
  assert (Hinvalid : Core_IsRunningAndStarted m = true -> memory = 0 ->
                     PowerPC_HostIsRAMAddress m address = false ->
                     result = "--------"%string).
  { intros H1 -> H3. unfold result, value.
    now rewrite GetRawMemoryString_primary_invalid. }
  assert (Hvalid : Core_IsRunningAndStarted m = true -> memory = 0 ->
                   PowerPC_HostIsRAMAddress m address = true ->
                   eight_upper_hex_digits result word).
  { intros H1 E H3. subst memory. unfold result, word, value.
    rewrite GetRawMemoryString_primary_valid by assumption.
    apply upper_hex_8_spec, u32_range. }
  assert (Hsecondary : Core_IsRunningAndStarted m = true -> memory <> 0 ->
                       exists digits,
                         result = String.append digits " (ARAM)"
                         /\ eight_upper_hex_digits digits word).
  { intros H1 H2. exists (upper_hex 8 word). split.
    - unfold result, value.
      now rewrite GetRawMemoryString_secondary.
    - apply upper_hex_8_spec, ReadExtraMemory_range. }
  do 4 (split; [assumption |]).
  intros Habs.
  destruct (Core_IsRunningAndStarted m) eqn:Ealive.
  - destruct (Z.eq_dec memory 0) as [E0 | E0].
    + destruct (PowerPC_HostIsRAMAddress m address) eqn:Eram.
      * specialize (Hvalid eq_refl E0 eq_refl). rewrite Habs in Hvalid.
        now apply not_eight_upper_hex_digits_ARAM in Hvalid.
      * rewrite (Hinvalid eq_refl E0 eq_refl) in Habs. discriminate.
    + destruct (Hsecondary eq_refl E0) as (digits & E & Hlen & _).
      rewrite E in Habs. apply (f_equal String.length) in Habs.
      rewrite length_append, Hlen in Habs. discriminate.
  - rewrite (Hdead eq_refl) in Habs. discriminate.
Qed.

Lemma GetRawMemoryString_cases_witness :
  value (GetRawMemoryString 0 0x80001000) (example_machine false Core.Running)
  = "<unknwn>"%string
  /\ value (GetRawMemoryString 0 0x1000) (example_machine true Core.Running)
     = "--------"%string
  /\ eight_upper_hex_digits
       (value (GetRawMemoryString 0 0x80001000)
              (example_machine true Core.Running))
       (value (ReadExtraMemory 0 0x80001000) (example_machine true Core.Running))
  /\ exists digits,
       value (GetRawMemoryString 1 0x1000) (example_machine true Core.Running)
       = String.append digits " (ARAM)"
       /\ eight_upper_hex_digits digits
            (value (ReadExtraMemory 1 0x1000) (example_machine true Core.Running)).
Proof.
  split; [| split; [| split]].
  - apply (GetRawMemoryString_cases 0 0x80001000
             (example_machine false Core.Running)).
    reflexivity.
  - apply (GetRawMemoryString_cases 0 0x1000
             (example_machine true Core.Running)); reflexivity.
  - apply (GetRawMemoryString_cases 0 0x80001000
             (example_machine true Core.Running)); reflexivity.
  - apply (GetRawMemoryString_cases 1 0x1000
             (example_machine true Core.Running)); [reflexivity | discriminate].
Defined.

(** C6 as first stated fails for a secondary space: with the machine alive,
    space 1 and an address that is not RAM, the answer is the word read from
    the audio RAM, not ["--ARAM--"]. *)
Lemma GetRawMemoryString_ARAM_counterexample :
  let m := example_machine true Core.Running in
  Core_IsRunningAndStarted m = true
  /\ PowerPC_HostIsRAMAddress m 0x1000 = false
  /\ value (GetRawMemoryString 1 0x1000) m = "00010203 (ARAM)"%string
  /\ value (GetRawMemoryString 1 0x1000) m <> "--ARAM--"%string.
Proof.
  vm_compute. repeat split. discriminate.
Qed.

(** C10. With the machine alive and a space that is neither 0 nor 1,
    [GetRawMemoryString] answers ["00000000 (ARAM)"] at every address, valid
    or not: the only call made is the liveness query, so the address is not
    checked, and [ReadExtraMemory] gives 0 for the space. *)
Theorem GetRawMemoryString_unknown_space (memory address : Z) (m : Machine) :
  Core_IsRunningAndStarted m = true ->
  memory <> 0 -> memory <> 1 ->
  value (GetRawMemoryString memory address) m = "00000000 (ARAM)"%string
  /\ calls (GetRawMemoryString memory address) m = [CallIsRunningAndStarted]
  /\ ~ In (CallHostIsRAMAddress address)
          (calls (GetRawMemoryString memory address) m)
  /\ ReadExtraMemory memory address m = (0, []).
Proof.
  intros H1 H2 H3. unfold value, calls.
  rewrite GetRawMemoryString_secondary by assumption.
  rewrite ReadExtraMemory_other_space by assumption.
  unfold value, calls. cbn.
  repeat split. intros [Habs | []]. discriminate.
Qed.

Lemma GetRawMemoryString_unknown_space_witness :
  value (GetRawMemoryString 2 0x1000) (example_machine true Core.Running)
  = "00000000 (ARAM)"%string
  /\ value (GetRawMemoryString (-1) 0x80001000)
           (example_machine true Core.Running)
     = "00000000 (ARAM)"%string.
Proof.
  split.
  - apply (GetRawMemoryString_unknown_space 2 0x1000
             (example_machine true Core.Running));
      [reflexivity | discriminate | discriminate].
  - apply (GetRawMemoryString_unknown_space (-1) 0x80001000
             (example_machine true Core.Running));
      [reflexivity | discriminate | discriminate].
Defined.

(** *** GetColor *)

Lemma GetColor_not_alive address m :
  Core_IsRunningAndStarted m = false ->
  GetColor address m = (Some 0xFFFFFF, [CallIsRunningAndStarted]).
Proof. intros H. unfold GetColor. host_unfold. now host_step H. Qed.

Lemma GetColor_no_ram address m :
  Core_IsRunningAndStarted m = true ->
  PowerPC_HostIsRAMAddress m address = false ->
  GetColor address m
  = (Some 0xeeeeee, [CallIsRunningAndStarted; CallHostIsRAMAddress address]).
Proof.
  intros H1 H2. unfold GetColor. host_unfold.
  host_step H1. now host_step H2.
Qed.

Lemma GetColor_no_symbol address m :
  Core_IsRunningAndStarted m = true ->
  PowerPC_HostIsRAMAddress m address = true ->
  g_symbolDB_GetSymbolFromAddr m address = None ->
  GetColor address m
  = (Some 0xFFFFFF,
     [CallIsRunningAndStarted; CallHostIsRAMAddress address;
      CallGetSymbolFromAddr address]).
Proof.
  intros H1 H2 H3. unfold GetColor. host_unfold.
  host_step H1. host_step H2. now host_step H3.
Qed.

Lemma GetColor_not_function address m symbol :
  Core_IsRunningAndStarted m = true ->
  PowerPC_HostIsRAMAddress m address = true ->
  g_symbolDB_GetSymbolFromAddr m address = Some symbol ->
  Symbol.type symbol <> Symbol.Function ->
  GetColor address m
  = (Some 0xEEEEFF,
     [CallIsRunningAndStarted; CallHostIsRAMAddress address;
      CallGetSymbolFromAddr address]).
Proof.
  intros H1 H2 H3 H4. apply Type_eqb_neq in H4.
  unfold GetColor. host_unfold.
  host_step H1. host_step H2. host_step H3. now rewrite H4.
Qed.

Lemma GetColor_function address m symbol :
  Core_IsRunningAndStarted m = true ->
  PowerPC_HostIsRAMAddress m address = true ->
  g_symbolDB_GetSymbolFromAddr m address = Some symbol ->
  Symbol.type symbol = Symbol.Function ->
  GetColor address m
  = (array_read colors (Z.rem (Symbol.index symbol) 6),
     [CallIsRunningAndStarted; CallHostIsRAMAddress address;
      CallGetSymbolFromAddr address]).
Proof.
  intros H1 H2 H3 H4.
  unfold GetColor. host_unfold.
  host_step H1. host_step H2. host_step H3. now host_step H4.
Qed.






(** C9, as amended.  Of the four answers outside the palette, the one for a
    machine that is not alive and the one for an address no symbol owns are
    the same colour, 0xFFFFFF; that colour, the colour 0xEEEEEE of an address
    that is not RAM and the colour 0xEEEEFF of a symbol that is not a function
    are three distinct colours. *)
Theorem GetColor_neutral_colors
    (a1 a2 a3 a4 : Z) (m1 m2 m3 m4 : Machine) (symbol : Symbol.t) :
  Core_IsRunningAndStarted m1 = false ->
  Core_IsRunningAndStarted m2 = true ->
  PowerPC_HostIsRAMAddress m2 a2 = false ->
  Core_IsRunningAndStarted m3 = true ->
  PowerPC_HostIsRAMAddress m3 a3 = true ->
  g_symbolDB_GetSymbolFromAddr m3 a3 = None ->
  Core_IsRunningAndStarted m4 = true ->
  PowerPC_HostIsRAMAddress m4 a4 = true ->
  g_symbolDB_GetSymbolFromAddr m4 a4 = Some symbol ->
  Symbol.type symbol <> Symbol.Function ->
  let unknown := value (GetColor a1) m1 in
  let invalid := value (GetColor a2) m2 in
  let no_symbol := value (GetColor a3) m3 in
  let not_function := value (GetColor a4) m4 in
  unknown = Some 0xFFFFFF /\ invalid = Some 0xEEEEEE
  /\ no_symbol = Some 0xFFFFFF /\ not_function = Some 0xEEEEFF
  /\ unknown = no_symbol
  /\ unknown <> invalid /\ unknown <> not_function
  /\ invalid <> not_function.
Proof.
  intros A1 A2 R2 A3 R3 S3 A4 R4 S4 T4. unfold value.
  rewrite (GetColor_not_alive a1 m1), (GetColor_no_ram a2 m2),
    (GetColor_no_symbol a3 m3), (GetColor_not_function a4 m4 symbol)
    by assumption.
  cbn [fst]. repeat split; discriminate.
Qed.

Lemma GetColor_neutral_colors_witness :
  value (GetColor 0x80001000) (example_machine false Core.Running)
  = value (GetColor 0x80003000) (example_machine true Core.Running)
  /\ value (GetColor 0x1000) (example_machine true Core.Running)
     <> value (GetColor 0x80002000) (example_machine true Core.Running).
Proof.
  pose proof (GetColor_neutral_colors
                0x80001000 0x1000 0x80003000 0x80002000
                (example_machine false Core.Running)
                (example_machine true Core.Running)
                (example_machine true Core.Running)
                (example_machine true Core.Running)
                (Symbol.mk Symbol.Data 0)
                eq_refl eq_refl eq_refl eq_refl eq_refl eq_refl
                eq_refl eq_refl eq_refl) as H.
  destruct H as (_ & _ & _ & _ & Hsame & _ & _ & Hdiff);
    [discriminate | split; assumption].
Defined.

(** C9 as first stated fails: a machine that is not alive and a live machine
    at a RAM address no symbol owns get the same colour. *)
Lemma GetColor_unknown_no_symbol_counterexample :
  let dead := example_machine false Core.Running in
  let live := example_machine true Core.Running in
  Core_IsRunningAndStarted dead = false
  /\ Core_IsRunningAndStarted live = true
  /\ PowerPC_HostIsRAMAddress live 0x80003000 = true
  /\ g_symbolDB_GetSymbolFromAddr live 0x80003000 = None
  /\ value (GetColor 0x80003000) dead = Some 0xFFFFFF
  /\ value (GetColor 0x80003000) live = Some 0xFFFFFF
  /\ value (GetColor 0x80003000) dead = value (GetColor 0x80003000) live.
Proof. vm_compute. repeat split. Qed.

(** * Further properties of the facade *)

(** ** Disassemble: what is asked of the machine, and when *)

Lemma Disassemble_calls address m :
  calls (Disassemble address) m
  = if negb (Core_IsRunningAndStarted m) then [CallIsRunningAndStarted]
    else if negb (Core.State_eqb (Core_GetState m) Core.Paused)
    then [CallIsRunningAndStarted; CallGetState]
    else if negb (PowerPC_HostIsRAMAddress m address)
    then [CallIsRunningAndStarted; CallGetState; CallHostIsRAMAddress address]
    else [CallIsRunningAndStarted; CallGetState; CallHostIsRAMAddress address;
          CallHostRead_Instruction address;
          CallDisassemble (u32 (PowerPC_HostRead_Instruction m address)) address].
Proof.
  unfold calls.
  destruct (Core_IsRunningAndStarted m) eqn:E1;
    [| now rewrite Disassemble_not_alive].
  destruct (Core.State_eqb (Core_GetState m) Core.Paused) eqn:E2.
  - apply State_eqb_eq in E2.
    destruct (PowerPC_HostIsRAMAddress m address) eqn:E3.
    + now rewrite Disassemble_ram.
    + now rewrite Disassemble_no_ram.
  - apply State_eqb_neq in E2. now rewrite Disassemble_not_paused.
Qed.

(** [Disassemble] asks about memory only on a machine that is alive and
    paused: the one address it asks about is the one it was given, and the
    instruction is fetched, and handed to the disassembler, only when that
    address is RAM. *)
Theorem Disassemble_fetch_guarded (address : Z) (m : Machine) (c : Call) :
  In c (calls (Disassemble address) m) ->
  (touches_memory c = true ->
     Core_IsRunningAndStarted m = true /\ Core_GetState m = Core.Paused
     /\ (c = CallHostIsRAMAddress address
         \/ c = CallHostRead_Instruction address))
  /\ ((c = CallHostRead_Instruction address
       \/ exists op a, c = CallDisassemble op a) ->
      Core_IsRunningAndStarted m = true /\ Core_GetState m = Core.Paused
      /\ PowerPC_HostIsRAMAddress m address = true
      /\ (forall op a, c = CallDisassemble op a ->
            op = value (ReadInstruction address) m /\ a = address)).
Proof.
  rewrite Disassemble_calls.
  destruct (Core_IsRunningAndStarted m) eqn:E1; cbn [negb];
    [destruct (Core.State_eqb (Core_GetState m) Core.Paused) eqn:E2; cbn [negb];
       [apply State_eqb_eq in E2;
        destruct (PowerPC_HostIsRAMAddress m address) eqn:E3; cbn [negb] | ] | ];
    intros Hin; cbn [In] in Hin;
    repeat (destruct Hin as [<- | Hin]; [| try contradiction]);
    (split;
     [ intros T; cbn in T; try discriminate T; intuition congruence
     | intros [H | (op & a & H)]; try discriminate H;
       (split; [auto | split; [auto | split; [auto |]]]);
       intros op' a' H'; try discriminate H';
       injection H' as <- <-; now split ]).
Qed.

Lemma Disassemble_fetch_guarded_witness :
  Core_IsRunningAndStarted (example_machine true Core.Paused) = true
  /\ Core_GetState (example_machine true Core.Paused) = Core.Paused
  /\ PowerPC_HostIsRAMAddress (example_machine true Core.Paused) 0x80001000 = true
  /\ (forall op a, CallDisassemble 0x04001234 0x80001000 = CallDisassemble op a ->
        op = value (ReadInstruction 0x80001000) (example_machine true Core.Paused)
        /\ a = 0x80001000).
Proof.
  apply (Disassemble_fetch_guarded 0x80001000 (example_machine true Core.Paused)
           (CallDisassemble 0x04001234 0x80001000)).
  - vm_compute. tauto.
  - right. now exists 0x04001234, 0x80001000.
Defined.

(** ** GetRawMemoryString: width, reads and faithfulness of the display *)

(** The answer for the primary space is always eight characters wide, the
    sentinels included; for a secondary space it is eight characters on a
    machine that is not alive and fifteen on a live one. *)
Theorem GetRawMemoryString_length (memory address : Z) (m : Machine) :
  String.length (value (GetRawMemoryString memory address) m)
  = if Core_IsRunningAndStarted m && negb (memory =? 0) then 15%nat else 8%nat.
Proof.
  unfold value.
  destruct (Core_IsRunningAndStarted m) eqn:E1; cbn [andb].
  - destruct (Z.eqb_spec memory 0) as [-> | E0]; cbn [negb].
    + destruct (PowerPC_HostIsRAMAddress m address) eqn:E2.
      * rewrite GetRawMemoryString_primary_valid by assumption.
        apply length_upper_hex.
      * now rewrite GetRawMemoryString_primary_invalid.
    + rewrite GetRawMemoryString_secondary by assumption.
      cbn [fst]. rewrite length_append, length_upper_hex. reflexivity.
  - now rewrite GetRawMemoryString_not_alive.
Qed.

Lemma GetRawMemoryString_calls memory address m :
  calls (GetRawMemoryString memory address) m
  = if negb (Core_IsRunningAndStarted m) then [CallIsRunningAndStarted]
    else if negb (memory =? 0)
    then CallIsRunningAndStarted :: calls (ReadExtraMemory memory address) m
    else if PowerPC_HostIsRAMAddress m address
    then [CallIsRunningAndStarted; CallHostIsRAMAddress address;
          CallHostRead_U32 address]
    else [CallIsRunningAndStarted; CallHostIsRAMAddress address].
Proof.
  unfold calls at 1.
  destruct (Core_IsRunningAndStarted m) eqn:E1; cbn [negb];
    [| now rewrite GetRawMemoryString_not_alive].
  destruct (Z.eqb_spec memory 0) as [-> | E0]; cbn [negb].
  - destruct (PowerPC_HostIsRAMAddress m address) eqn:E2.
    + now rewrite GetRawMemoryString_primary_valid.
    + now rewrite GetRawMemoryString_primary_invalid.
  - now rewrite GetRawMemoryString_secondary.
Qed.

Lemma ReadExtraMemory_calls memory address m :
  calls (ReadExtraMemory memory address) m
  = if memory =? 0 then [CallHostRead_U32 address]
    else if memory =? 1
    then [CallReadARAM address; CallReadARAM (u32 (address + 1));
          CallReadARAM (u32 (address + 2)); CallReadARAM (u32 (address + 3))]
    else [].
Proof.
  destruct (Z.eqb_spec memory 0) as [-> | E0]; [reflexivity |].
  destruct (Z.eqb_spec memory 1) as [-> | E1].
  - unfold calls. now rewrite ReadExtraMemory_ARAM.
  - now rewrite ReadExtraMemory_other_space.
Qed.

(** [GetRawMemoryString] touches memory only on a live machine.  The primary
    memory is read only in space 0, at the address given and after it was found
    to be RAM; the audio RAM is read only in space 1; and the RAM-validity of
    the address is asked only in space 0. *)
Theorem GetRawMemoryString_reads_guarded
    (memory address : Z) (m : Machine) (c : Call) :
  In c (calls (GetRawMemoryString memory address) m) ->
  touches_memory c = true ->
  Core_IsRunningAndStarted m = true
  /\ (forall a, c = CallHostRead_U32 a ->
        memory = 0 /\ a = address /\ PowerPC_HostIsRAMAddress m address = true)
  /\ (forall a, c = CallHostIsRAMAddress a -> memory = 0 /\ a = address)
  /\ (forall a, c = CallReadARAM a -> memory = 1)
  /\ (forall a, c <> CallHostRead_Instruction a).
Proof.
  rewrite GetRawMemoryString_calls, ReadExtraMemory_calls.
  destruct (Core_IsRunningAndStarted m) eqn:E1; cbn [negb];
    [destruct (Z.eqb_spec memory 0) as [E0 | E0]; cbn [negb];
       [destruct (PowerPC_HostIsRAMAddress m address) eqn:E2
       | destruct (Z.eqb_spec memory 1) as [E1' | E1'] ] | ];
    intros Hin T; cbn [In] in Hin;
    repeat (destruct Hin as [<- | Hin]; [| try contradiction]);
    cbn in T; try discriminate T;
    (split; [reflexivity |]);
    (split; [intros a H; try discriminate H; try injection H as <-; auto |]);
    (split; [intros a H; try discriminate H; try injection H as <-; auto |]);
    (split; [intros a H; try discriminate H; auto |]);
    intros a H; discriminate H.
Qed.

Lemma GetRawMemoryString_reads_guarded_witness :
  Core_IsRunningAndStarted (example_machine true Core.Running) = true
  /\ (forall a, CallHostRead_U32 0x80001000 = CallHostRead_U32 a ->
        0 = 0 /\ a = 0x80001000
        /\ PowerPC_HostIsRAMAddress (example_machine true Core.Running)
             0x80001000 = true)
  /\ (forall a, CallHostRead_U32 0x80001000 = CallHostIsRAMAddress a ->
        0 = 0 /\ a = 0x80001000)
  /\ (forall a, CallHostRead_U32 0x80001000 = CallReadARAM a -> 0 = 1)
  /\ (forall a, CallHostRead_U32 0x80001000 <> CallHostRead_Instruction a).
Proof.
  apply (GetRawMemoryString_reads_guarded 0 0x80001000
           (example_machine true Core.Running) (CallHostRead_U32 0x80001000)).
  - vm_compute. tauto.
  - reflexivity.
Defined.

(** *** The bytes of the audio RAM *)

Lemma byte_of_word b0 b1 b2 b3 :
  0 <= b0 < 2 ^ 8 -> 0 <= b1 < 2 ^ 8 -> 0 <= b2 < 2 ^ 8 -> 0 <= b3 < 2 ^ 8 ->
  let word := b0 * 2 ^ 24 + b1 * 2 ^ 16 + b2 * 2 ^ 8 + b3 in
  Z.land (Z.shiftr word 24) 255 = b0
  /\ Z.land (Z.shiftr word 16) 255 = b1
  /\ Z.land (Z.shiftr word 8) 255 = b2
  /\ Z.land word 255 = b3.
Proof.
  intros H0 H1 H2 H3 word. subst word.
  change 255 with (Z.ones 8).
  rewrite !Z.land_ones, !Z.shiftr_div_pow2 by lia.
  change (2 ^ 24) with 16777216. change (2 ^ 16) with 65536.
  change (2 ^ 8) with 256 in *.
  repeat split; Z.div_mod_to_equations; lia.
Qed.

(** The word [ReadExtraMemory] makes of the audio RAM gives its four bytes
    back: the byte at [address] is bits 24 to 31, the next one bits 16 to 23,
    and so on down to the byte at [address + 3] in bits 0 to 7. *)
Theorem ReadExtraMemory_ARAM_bytes (address : Z) (m : Machine) :
  let word := value (ReadExtraMemory 1 address) m in
  let byte i := value (ReadARAM (u32 (address + i))) m in
  0 <= word < 2 ^ 32
  /\ Z.land (Z.shiftr word 24) 255 = value (ReadARAM address) m
  /\ Z.land (Z.shiftr word 16) 255 = byte 1
  /\ Z.land (Z.shiftr word 8) 255 = byte 2
  /\ Z.land word 255 = byte 3.
Proof.
  intros word byte. split; [apply ReadExtraMemory_range |].
  subst word byte. unfold value. rewrite ReadExtraMemory_ARAM.
  unfold ReadARAM. cbn [fst].
  apply byte_of_word; apply u8_range.
Qed.

Lemma append_String c s1 s2 :
  String.append (String c s1) s2 = String c (String.append s1 s2).
Proof. reflexivity. Qed.

Lemma append_empty_l s : String.append "" s = s.
Proof. reflexivity. Qed.

Lemma upper_hex_8_bytes b0 b1 b2 b3 :
  0 <= b0 < 2 ^ 8 -> 0 <= b1 < 2 ^ 8 -> 0 <= b2 < 2 ^ 8 -> 0 <= b3 < 2 ^ 8 ->
  upper_hex 8 (b0 * 2 ^ 24 + b1 * 2 ^ 16 + b2 * 2 ^ 8 + b3)
  = String.append (upper_hex 2 b0)
      (String.append (upper_hex 2 b1)
         (String.append (upper_hex 2 b2) (upper_hex 2 b3))).
Proof.
  intros H0 H1 H2 H3.
  change (2 ^ 8) with 256 in *.
  change (2 ^ 24) with 16777216. change (2 ^ 16) with 65536.
  cbn [upper_hex].
  repeat (rewrite append_String || rewrite append_empty_l).
  rewrite !nibble_spec.
  change (16 ^ Z.of_nat 7) with 268435456.
  change (16 ^ Z.of_nat 6) with 16777216.
  change (16 ^ Z.of_nat 5) with 1048576.
  change (16 ^ Z.of_nat 4) with 65536.
  change (16 ^ Z.of_nat 3) with 4096.
  change (16 ^ Z.of_nat 2) with 256.
  change (16 ^ Z.of_nat 1) with 16.
  change (16 ^ Z.of_nat 0) with 1.
  repeat (f_equal; [f_equal; Z.div_mod_to_equations; lia |]).
  do 2 f_equal. Z.div_mod_to_equations; lia.
Qed.

(** On a live machine the display of space 1 is the four audio-RAM bytes in
    address order, two uppercase hexadecimal digits each, and [" (ARAM)"]. *)
Theorem GetRawMemoryString_ARAM_bytes (address : Z) (m : Machine) :
  Core_IsRunningAndStarted m = true ->
  let byte i := value (ReadARAM (u32 (address + i))) m in
  value (GetRawMemoryString 1 address) m
  = String.append (upper_hex 2 (value (ReadARAM address) m))
      (String.append (upper_hex 2 (byte 1))
         (String.append (upper_hex 2 (byte 2))
            (String.append (upper_hex 2 (byte 3)) " (ARAM)"))).
Proof.
  intros H byte. subst byte. unfold value.
  rewrite GetRawMemoryString_secondary by (assumption || discriminate).
  unfold value. rewrite ReadExtraMemory_ARAM.
  unfold ReadARAM. cbn [fst].
  rewrite upper_hex_8_bytes by apply u8_range.
  reflexivity.
Qed.

Lemma GetRawMemoryString_ARAM_bytes_witness :
  value (GetRawMemoryString 1 0xFFFFFFFE) (example_machine true Core.Running)
  = "FEFF0001 (ARAM)"%string.
Proof.
  apply (GetRawMemoryString_ARAM_bytes 0xFFFFFFFE
           (example_machine true Core.Running)).
  reflexivity.
Defined.

Lemma append_inj_l s1 s2 t1 t2 :
  String.length s1 = String.length s2 ->
  String.append s1 t1 = String.append s2 t2 -> s1 = s2.
Proof.
  revert s2. induction s1 as [| c s1 IH]; intros [| c2 s2] Hlen H;
    simpl in Hlen; try discriminate; [reflexivity |].
  rewrite !append_String in H. injection H as -> H.
  f_equal. apply IH; [lia | assumption].
Qed.

Lemma upper_hex_8_inj v1 v2 :
  0 <= v1 < 2 ^ 32 -> 0 <= v2 < 2 ^ 32 ->
  upper_hex 8 v1 = upper_hex 8 v2 -> v1 = v2.
Proof.
  intros H1 H2 E.
  destruct (upper_hex_8_spec v1 H1) as [_ E1].
  destruct (upper_hex_8_spec v2 H2) as [_ E2].
  rewrite E in E1. congruence.
Qed.

(** The display loses nothing: on live machines, within one space, two
    answers that show a word (every secondary-space answer, and the
    primary-space answers at RAM addresses) are equal only if the words
    [ReadExtraMemory] read are equal. *)
Theorem GetRawMemoryString_faithful
    (memory address1 address2 : Z) (m1 m2 : Machine) :
  Core_IsRunningAndStarted m1 = true ->
  Core_IsRunningAndStarted m2 = true ->
  (memory = 0 -> PowerPC_HostIsRAMAddress m1 address1 = true
                 /\ PowerPC_HostIsRAMAddress m2 address2 = true) ->
  value (GetRawMemoryString memory address1) m1
  = value (GetRawMemoryString memory address2) m2 ->
  value (ReadExtraMemory memory address1) m1
  = value (ReadExtraMemory memory address2) m2.
Proof.
  intros A1 A2 Hram E.
  apply upper_hex_8_inj; try apply ReadExtraMemory_range.
  destruct (Z.eq_dec memory 0) as [-> | E0].
  - destruct (Hram eq_refl) as [R1 R2]. unfold value in E.
    rewrite !GetRawMemoryString_primary_valid in E by assumption.
    exact E.
  - unfold value in E.
    rewrite !GetRawMemoryString_secondary in E by assumption.
    cbn [fst] in E.
    apply append_inj_l in E; [exact E |].
    now rewrite !length_upper_hex.
Qed.

Lemma GetRawMemoryString_faithful_witness :
  value (ReadExtraMemory 0 0x80001004) (example_machine true Core.Running)
  = value (ReadExtraMemory 0 0x80001008) (example_machine true Core.Paused).
Proof.
  apply (GetRawMemoryString_faithful 0 0x80001004 0x80001008
           (example_machine true Core.Running)
           (example_machine true Core.Paused));
    try reflexivity.
  intros _. split; reflexivity.
Defined.

(** ** GetColor: what the colours tell apart *)

Lemma palette_position i :
  0 <= i < 6 ->
  exists color,
    array_read colors i = Some color
    /\ ~ In color neutral_colors
    /\ forall j, 0 <= j < 6 -> array_read colors j = Some color -> j = i.
Proof.
  intros Hi.
  assert (E : i = 0 \/ i = 1 \/ i = 2 \/ i = 3 \/ i = 4 \/ i = 5) by lia.
  destruct E as [-> | [-> | [-> | [-> | [-> | ->]]]]];
    (eexists; split; [reflexivity |]; split;
     [ cbn; intuition discriminate
     | intros j Hj;
       assert (Ej : j = 0 \/ j = 1 \/ j = 2 \/ j = 3 \/ j = 4 \/ j = 5) by lia;
       destruct Ej as [-> | [-> | [-> | [-> | [-> | ->]]]]];
       cbn; intros H; first [reflexivity | discriminate H] ]).
Qed.

(** The six palette colours are pairwise different, so for function symbols
    (indices at least 0) the colour determines the index modulo 6: two of them
    are coloured alike exactly when their indices differ by a multiple
    of 6. *)
Theorem GetColor_same_iff_congruent
    (address1 address2 : Z) (m1 m2 : Machine) (symbol1 symbol2 : Symbol.t) :
  Core_IsRunningAndStarted m1 = true ->
  Core_IsRunningAndStarted m2 = true ->
  PowerPC_HostIsRAMAddress m1 address1 = true ->
  PowerPC_HostIsRAMAddress m2 address2 = true ->
  g_symbolDB_GetSymbolFromAddr m1 address1 = Some symbol1 ->
  g_symbolDB_GetSymbolFromAddr m2 address2 = Some symbol2 ->
  Symbol.type symbol1 = Symbol.Function ->
  Symbol.type symbol2 = Symbol.Function ->
  0 <= Symbol.index symbol1 -> 0 <= Symbol.index symbol2 ->
  value (GetColor address1) m1 = value (GetColor address2) m2
  <-> Symbol.index symbol1 mod 6 = Symbol.index symbol2 mod 6.
Proof.
  intros A1 A2 R1 R2 S1 S2 F1 F2 I1 I2. unfold value.
  rewrite (GetColor_function address1 m1 symbol1),
    (GetColor_function address2 m2 symbol2) by assumption.
  cbn [fst]. rewrite !Z.rem_mod_nonneg by lia.
  split; [| now intros ->].
  intros E.
  pose proof (Z.mod_pos_bound (Symbol.index symbol1) 6 ltac:(lia)) as B1.
  pose proof (Z.mod_pos_bound (Symbol.index symbol2) 6 ltac:(lia)) as B2.
  destruct (palette_position _ B2) as (color & Hc & _ & Hinj).
  apply Hinj; [assumption | congruence].
Qed.

Lemma GetColor_same_iff_congruent_witness :
  value (GetColor 0x80000310) (example_machine true Core.Paused)
  = value (GetColor 0x80000410) (example_machine true Core.Paused)
  <-> 3 mod 6 = 4 mod 6.
Proof.
  apply (GetColor_same_iff_congruent 0x80000310 0x80000410
           (example_machine true Core.Paused) (example_machine true Core.Paused)
           (Symbol.mk Symbol.Function 3) (Symbol.mk Symbol.Function 4));
    first [reflexivity | vm_compute; discriminate].
Defined.

(** A function symbol (index at least 0) is never given one of the three
    neutral colours, and every other case is: the colour alone tells whether
    a live RAM address belongs to a function. *)
Theorem GetColor_neutral_iff_not_function (address : Z) (m : Machine) :
  (forall symbol,
      g_symbolDB_GetSymbolFromAddr m address = Some symbol ->
      Symbol.type symbol = Symbol.Function -> 0 <= Symbol.index symbol) ->
  (exists color,
      value (GetColor address) m = Some color /\ In color neutral_colors)
  <-> ~ (Core_IsRunningAndStarted m = true
         /\ PowerPC_HostIsRAMAddress m address = true
         /\ exists symbol,
              g_symbolDB_GetSymbolFromAddr m address = Some symbol
              /\ Symbol.type symbol = Symbol.Function).
Proof.
  intros Hindex. unfold value.
  destruct (Core_IsRunningAndStarted m) eqn:E1.
  2: { rewrite GetColor_not_alive by assumption. split.
       - intros _ (H & _). discriminate.
       - intros _. exists 0xFFFFFF. cbn. auto. }
  destruct (PowerPC_HostIsRAMAddress m address) eqn:E2.
  2: { rewrite GetColor_no_ram by assumption. split.
       - intros _ (_ & H & _). discriminate.
       - intros _. exists 0xeeeeee. cbn. auto. }
  destruct (g_symbolDB_GetSymbolFromAddr m address) as [symbol |] eqn:E3.
  2: { rewrite GetColor_no_symbol by assumption. split.
       - intros _ (_ & _ & s & H & _). discriminate.
       - intros _. exists 0xFFFFFF. cbn. auto. }
  destruct (Symbol.type symbol) eqn:E4.
  - rewrite (GetColor_function address m symbol) by assumption.
    cbn [fst]. specialize (Hindex symbol eq_refl E4).
    rewrite Z.rem_mod_nonneg by lia.
    destruct (palette_position (Symbol.index symbol mod 6))
      as (color & Hc & Hn & _); [apply Z.mod_pos_bound; lia |].
    rewrite Hc. split.
    + intros (color' & [= <-] & Hin). contradiction.
    + intros H. exfalso. apply H. repeat split. now exists symbol.
  - rewrite (GetColor_not_function address m symbol)
      by (assumption || congruence).
    split.
    + intros _ (_ & _ & s & [= <-] & H). congruence.
    + intros _. exists 0xEEEEFF. cbn. auto.
Qed.

Lemma GetColor_neutral_iff_not_function_witness :
  (exists color,
      value (GetColor 0x80002000) (example_machine true Core.Paused) = Some color
      /\ In color neutral_colors)
  <-> ~ (Core_IsRunningAndStarted (example_machine true Core.Paused) = true
         /\ PowerPC_HostIsRAMAddress (example_machine true Core.Paused)
              0x80002000 = true
         /\ exists symbol,
              g_symbolDB_GetSymbolFromAddr (example_machine true Core.Paused)
                0x80002000 = Some symbol
              /\ Symbol.type symbol = Symbol.Function).
Proof.
  apply (GetColor_neutral_iff_not_function 0x80002000
           (example_machine true Core.Paused)).
  intros symbol H. vm_compute in H. injection H as <-. discriminate.
Defined.

Lemma GetColor_calls address m :
  calls (GetColor address) m
  = if negb (Core_IsRunningAndStarted m) then [CallIsRunningAndStarted]
    else if negb (PowerPC_HostIsRAMAddress m address)
    then [CallIsRunningAndStarted; CallHostIsRAMAddress address]
    else [CallIsRunningAndStarted; CallHostIsRAMAddress address;
          CallGetSymbolFromAddr address].
Proof.
  unfold calls.
  destruct (Core_IsRunningAndStarted m) eqn:E1;
    [| now rewrite GetColor_not_alive].
  destruct (PowerPC_HostIsRAMAddress m address) eqn:E2;
    [| now rewrite GetColor_no_ram].
  destruct (g_symbolDB_GetSymbolFromAddr m address) as [symbol |] eqn:E3;
    [| now rewrite GetColor_no_symbol].
  destruct (Symbol.type symbol) eqn:E4.
  - now rewrite (GetColor_function address m symbol).
  - rewrite (GetColor_not_function address m symbol);
      [reflexivity | assumption .. | congruence].
Qed.

(** [GetColor] reads no memory word and never asks for the execution state:
    it asks whether the machine is alive, then, on a live machine only,
    whether the address is RAM, and the symbol database is looked up exactly
    when both hold. *)
Theorem GetColor_lookup_guarded (address : Z) (m : Machine) :
  (In (CallGetSymbolFromAddr address) (calls (GetColor address) m)
   <-> Core_IsRunningAndStarted m = true
       /\ PowerPC_HostIsRAMAddress m address = true)
  /\ (In (CallHostIsRAMAddress address) (calls (GetColor address) m)
      <-> Core_IsRunningAndStarted m = true)
  /\ (forall c, In c (calls (GetColor address) m) ->
        c = CallIsRunningAndStarted \/ c = CallHostIsRAMAddress address
        \/ c = CallGetSymbolFromAddr address).
Proof.
  rewrite GetColor_calls.
  destruct (Core_IsRunningAndStarted m);
    destruct (PowerPC_HostIsRAMAddress m address); cbn;
    intuition (try discriminate; auto).
Qed.

Lemma GetColor_lookup_guarded_witness :
  CallGetSymbolFromAddr 0x80003000 = CallIsRunningAndStarted
  \/ CallGetSymbolFromAddr 0x80003000 = CallHostIsRAMAddress 0x80003000
  \/ CallGetSymbolFromAddr 0x80003000 = CallGetSymbolFromAddr 0x80003000.
Proof.
  apply (GetColor_lookup_guarded 0x80003000 (example_machine true Core.Running)).
  vm_compute. tauto.
Defined.

(** ** ToggleMemCheck: coverage after a toggle *)

Lemma covered_covering mcs a :
  covered mcs a = negb (Nat.eqb (covering mcs a) 0).
Proof.
  unfold covered, covering.
  induction mcs as [| mc rest IH]; [reflexivity |].
  cbn [existsb List.filter length]. destruct (MemChecks.contains mc a); [reflexivity |].
  exact IH.
Qed.

Lemma covering_app mcs1 mcs2 a :
  covering (mcs1 ++ mcs2) a = (covering mcs1 a + covering mcs2 a)%nat.
Proof. unfold covering. now rewrite List.filter_app, length_app. Qed.

Lemma covering_Remove mcs a :
  covering (MemChecks.Remove mcs a) a = Nat.pred (covering mcs a).
Proof.
  unfold covering.
  induction mcs as [| mc rest IH]; [reflexivity |].
  cbn [MemChecks.Remove List.filter].
  destruct (MemChecks.contains mc a) eqn:E; [reflexivity |].
  cbn [List.filter]. now rewrite E.
Qed.

(** A toggle at [a] is a flip of [IsMemCheck a] only while at most one record
    covers [a].  In general, after [ToggleMemCheck a] the address is covered
    unless exactly one record covered it before: none, and a record is added;
    one, and it is removed; two or more, and only the first is removed. *)
Theorem ToggleMemCheck_coverage (mcs : MemChecks.t) (a : Z) (r w l : bool) :
  IsMemCheck (ToggleMemCheck mcs a r w l) a IsMemCheck_default_size
  = negb (Nat.eqb (covering mcs a) 1).
Proof.
  rewrite IsMemCheck_covered.
  destruct (covered mcs a) eqn:E.
  - rewrite ToggleMemCheck_present by assumption.
    rewrite covered_covering, covering_Remove.
    rewrite covered_covering in E.
    destruct (covering mcs a) as [| [| n]]; simpl in *; congruence.
  - rewrite ToggleMemCheck_absent by assumption.
    rewrite covered_app, covered_point, orb_true_r.
    rewrite covered_covering in E.
    destruct (covering mcs a) as [| n]; simpl in *; congruence.
Qed.

Lemma contains_toggle_made mc a :
  toggle_made mc -> MemChecks.contains mc a = (start_address mc =? a).
Proof.
  intros [He _]. unfold MemChecks.contains. rewrite He.
  destruct (Z.eqb_spec (start_address mc) a) as [-> | Hne].
  - now rewrite Z.leb_refl.
  - destruct (Z.leb_spec (start_address mc) a),
             (Z.leb_spec a (start_address mc)); auto; lia.
Qed.

Lemma covered_toggled_only mcs a :
  Forall toggle_made mcs ->
  covered mcs a = true <-> In a (map start_address mcs).
Proof.
  unfold covered. induction 1 as [| mc rest Hmc Hrest IH]; cbn [existsb map In].
  - split; [discriminate | contradiction].
  - rewrite orb_true_iff, IH, (contains_toggle_made mc a Hmc), Z.eqb_eq.
    reflexivity.
Qed.

Lemma Remove_toggled_only mcs a :
  toggled_only mcs ->
  toggled_only (MemChecks.Remove mcs a)
  /\ ~ In a (map start_address (MemChecks.Remove mcs a))
  /\ (forall b, b <> a ->
        In b (map start_address (MemChecks.Remove mcs a))
        <-> In b (map start_address mcs)).
Proof.
  intros [Hall Hnd].
  induction Hall as [| mc rest Hmc Hrest IH]; cbn [MemChecks.Remove map].
  - split; [split; constructor |]. split; [intros [] |]. intros b _. tauto.
  - cbn [map] in Hnd. apply NoDup_cons_iff in Hnd as [Hnotin Hnd].
    rewrite (contains_toggle_made mc a Hmc).
    destruct (Z.eqb_spec (start_address mc) a) as [E | E].
    + subst a. split; [now split |]. split; [assumption |].
      intros b Hb. cbn [In]. split; [now right |].
      intros [Heq | Hin]; [congruence | assumption].
    + destruct (IH Hnd) as ((Hall' & Hnd') & Hgone & Hkeep).
      cbn [map In]. split; [split |]; [| | split].
      * now constructor.
      * constructor; [| assumption].
        intros Hin. apply Hnotin.
        now apply (Hkeep (start_address mc) E).
      * intros [Heq | Hin]; [congruence | contradiction].
      * intros b Hb. rewrite (Hkeep b Hb). tauto.
Qed.

(** Sets that only toggling has touched keep their shape: starting from any
    set of single-address records at pairwise different addresses, each
    breaking on hit (the empty set is one), [ToggleMemCheck] gives such a set
    again.  The toggle never leaves two records at one address. *)
Theorem ToggleMemCheck_toggled_only (mcs : MemChecks.t) (a : Z) (r w l : bool) :
  toggled_only mcs -> toggled_only (ToggleMemCheck mcs a r w l).
Proof.
  intros Hinv.
  destruct (covered mcs a) eqn:E.
  - rewrite ToggleMemCheck_present by assumption.
    now apply Remove_toggled_only.
  - rewrite ToggleMemCheck_absent by assumption.
    destruct Hinv as [Hall Hnd]. split.
    + apply Forall_app. split; [assumption |].
      constructor; [| constructor]. now split.
    + rewrite map_app. cbn [map start_address].
      apply List.NoDup_app.
      * assumption.
      * constructor; [intros [] | constructor].
      * intros x Hx [Heq | []]. subst x.
        apply (covered_toggled_only mcs a Hall) in Hx. congruence.
Qed.

Lemma ToggleMemCheck_toggled_only_witness :
  toggled_only
    (ToggleMemCheck (ToggleMemCheck [] 0x1000 true false false)
                    0x1004 false true true).
Proof.
  apply (ToggleMemCheck_toggled_only
           (ToggleMemCheck [] 0x1000 true false false) 0x1004 false true true).
  apply (ToggleMemCheck_toggled_only [] 0x1000 true false false).
  split; constructor.
Defined.

(** On such a set a toggle is a flip: it changes the answer of
    [IsMemCheck] at the toggled address and at no other address. *)
Theorem ToggleMemCheck_flips
    (mcs : MemChecks.t) (a b : Z) (r w l : bool) :
  toggled_only mcs ->
  IsMemCheck (ToggleMemCheck mcs a r w l) b IsMemCheck_default_size
  = if b =? a
    then negb (IsMemCheck mcs a IsMemCheck_default_size)
    else IsMemCheck mcs b IsMemCheck_default_size.
Proof.
  intros Hinv. rewrite !IsMemCheck_covered.
  pose proof Hinv as [Hall _].
  apply eq_true_iff_eq.
  destruct (covered mcs a) eqn:E.
  - rewrite ToggleMemCheck_present by assumption.
    destruct (Remove_toggled_only mcs a Hinv) as ((Hall' & _) & Hgone & Hkeep).
    rewrite (covered_toggled_only _ b Hall').
    destruct (Z.eqb_spec b a) as [-> | Hne].
    + cbn [negb]. split; [contradiction | discriminate].
    + now rewrite (Hkeep b Hne), (covered_toggled_only mcs b Hall).
  - rewrite ToggleMemCheck_absent by assumption.
    rewrite covered_app, orb_true_iff.
    unfold covered at 2. cbn [existsb]. rewrite orb_false_r.
    unfold MemChecks.contains. cbn [start_address end_address].
    rewrite andb_true_iff, !Z.leb_le.
    destruct (Z.eqb_spec b a) as [-> | Hne].
    + cbn [negb]. rewrite E. intuition lia.
    + intuition lia.
Qed.

Lemma ToggleMemCheck_flips_witness :
  IsMemCheck (ToggleMemCheck [mkTMemCheck 0x1000 0x1000 true false false true]
                             0x1000 false true true)
             0x1000 IsMemCheck_default_size
  = false.
Proof.
  apply (ToggleMemCheck_flips
           [mkTMemCheck 0x1000 0x1000 true false false true]
           0x1000 0x1000 false true true).
  split.
  - constructor; [now split | constructor].
  - constructor; [intros [] | constructor].
Defined.

(** ** Breakpoints: how the operations compose *)

Lemma elem_of_ToggleBreakpoint (bps : BreakPoints.t) a x :
  x ∈ ToggleBreakpoint bps a <-> (x = a /\ a ∉ bps) \/ (x <> a /\ x ∈ bps).
Proof.
  destruct (decide (a ∈ bps)) as [Ha | Ha].
  - rewrite ToggleBreakpoint_present by assumption.
    destruct (decide (x = a)); set_solver.
  - rewrite ToggleBreakpoint_absent by assumption.
    destruct (decide (x = a)); set_solver.
Qed.

(** Toggles at two addresses can be made in either order, and a toggle
    undoes the set or the clear made just before it at the same address:
    after [SetBreakpoint a], [ToggleBreakpoint a] leaves what
    [ClearBreakpoint a] would, and the other way round. *)
Theorem ToggleBreakpoint_composes (bps : BreakPoints.t) (a b : Z) :
  ToggleBreakpoint (ToggleBreakpoint bps a) b
  = ToggleBreakpoint (ToggleBreakpoint bps b) a
  /\ ToggleBreakpoint (SetBreakpoint bps a) a = ClearBreakpoint bps a
  /\ ToggleBreakpoint (ClearBreakpoint bps a) a = SetBreakpoint bps a.
Proof.
  unfold SetBreakpoint, ClearBreakpoint, BreakPoints.Add, BreakPoints.Remove.
  split; [| split]; apply set_eq; intros x.
  - rewrite !elem_of_ToggleBreakpoint.
    destruct (decide (x = a)), (decide (x = b)), (decide (a ∈ bps)),
      (decide (b ∈ bps)); subst; tauto.
  - rewrite elem_of_ToggleBreakpoint.
    destruct (decide (x = a)); set_solver.
  - rewrite elem_of_ToggleBreakpoint.
    destruct (decide (x = a)); set_solver.
Qed.
